(** * ChesskitGPT: the move-explanation services

    A shallow embedding of [MoveExplainerService] (lib/llm/moveExplainer)
    and [GameExplanationService] (lib/llm/gameExplanationService.ts),
    and of the hooks [useExplanations] and [useGameExplanations] and the
    button [ExplainButton] that use them.

    Conventions of the embedding.
    - A JavaScript [number] that the code computes with fractions (win
      percentages, the evaluation threshold, [cp / 100]) is a binary64
      [float]; a [number] that is a count or an index by construction
      (move numbers, mate distances, centipawns, [maxLength], the batch
      [concurrency]) is an integer ([nat] or [Z]).
    - A JavaScript string is a [string]; its characters stand for code
      units, of which only the 8-bit ones are represented.
    - [undefined] is [None]; a value that may be thrown is the left
      summand of a sum.
    - The collaborators that are not code of these two classes (the
      JSON parser, the chess rules library, the HTTP transport, the
      win-percentage helper) are fields of the class [Externals] or
      explicit oracles.
    - A hook is the record of its state cells and a function from the
      state of the render that created a callback to the state the
      setters leave when the callback is over. *)

From Stdlib Require Import Floats ZArith Lia.
From stdpp Require Import base strings pretty list gmap sorting.

(** ** JavaScript built-ins used by the services *)
Module Js.

(** *** Relative indices of [slice] *)

(** [String.prototype.slice] and [Array.prototype.slice] resolve an
    index against the length: a negative index counts from the end. *)
Definition clamp (len k : Z) : Z :=
  if (k <? 0)%Z then Z.max (len + k) 0 else Z.min k len.

(** First position and number of elements of [slice(start, stop)]. *)
Definition slice_from (len start : Z) : nat := Z.to_nat (clamp len start).

Definition slice_count (len start stop : Z) : nat :=
  Z.to_nat (Z.max (clamp len stop - clamp len start) 0).

Definition slice {A} (l : list A) (start stop : Z) : list A :=
  let len := Z.of_nat (length l) in
  take (slice_count len start stop) (drop (slice_from len start) l).

(** *** Strings *)

Fixpoint str_take (n : nat) (s : string) : string :=
  match n, s with
  | S n', String c r => String c (str_take n' r)
  | _, _ => EmptyString
  end.

Fixpoint str_drop (n : nat) (s : string) : string :=
  match n, s with
  | S n', String _ r => str_drop n' r
  | _, _ => s
  end.

Definition str_slice (s : string) (start stop : Z) : string :=
  let len := Z.of_nat (String.length s) in
  str_take (slice_count len start stop) (str_drop (slice_from len start) s).

(** White space and line terminators among the 8-bit code units:
    TAB, LF, VT, FF, CR, SP and NBSP. *)
Definition is_space (c : Ascii.ascii) : bool :=
  let n := Ascii.nat_of_ascii c in
  ((9 <=? n) && (n <=? 13)) || (n =? 32) || (n =? 160).

Fixpoint trim_start (s : string) : string :=
  match s with
  | String c r => if is_space c then trim_start r else s
  | EmptyString => EmptyString
  end.

Fixpoint trim_end (s : string) : string :=
  match s with
  | String c r =>
      match trim_end r with
      | EmptyString => if is_space c then EmptyString else String c EmptyString
      | r' => String c r'
      end
  | EmptyString => EmptyString
  end.

(** [String.prototype.trim]. *)
Definition trim (s : string) : string := trim_end (trim_start s).

(** [base || alt] on an optional string: the empty string is falsy. *)
Definition str_or (base : option string) (alt : string) : string :=
  match base with
  | Some s => if decide (s = EmptyString) then alt else s
  | None => alt
  end.

(** An optional string inside a template literal. *)
Definition show_opt (o : option string) : string := default "undefined" o.

(** *** Values produced by [JSON.parse] *)

#[local] Set Warnings "-register-all".
Inductive json : Type :=
| JNull
| JBool (b : bool)
| JNumber (x : float)
| JString (s : string)
| JArray (items : list json)
| JObject (fields : list (string * json)).

(** A JavaScript value here is a JSON value or [undefined]. *)
Definition value : Type := option json.

(** Own property of a parsed object. [JSON.parse] keeps one value per
    key, so the first match is the only one. *)
Fixpoint assoc (k : string) (fields : list (string * json)) : value :=
  match fields with
  | [] => None
  | (k', v) :: rest => if decide (k = k') then Some v else assoc k rest
  end.

(** ToBoolean. *)
Definition truthy (v : value) : bool :=
  match v with
  | None | Some JNull => false
  | Some (JBool b) => b
  | Some (JNumber x) => negb (PrimFloat.is_nan x || PrimFloat.is_zero x)
  | Some (JString s) => if decide (s = EmptyString) then false else true
  | Some (JArray _) | Some (JObject _) => true
  end.

(** [a || b]. *)
Definition or_else (a : value) (b : json) : json :=
  match a with
  | Some v => if truthy a then v else b
  | None => b
  end.

(** The operand of a [throw] or the rejection of a promise: an [Error]
    with its message, or some other value. *)
Inductive thrown : Type :=
| ErrorObject (message : string)
| OtherValue.

(** What a property access or a call raises. *)
Definition TypeError (message : string) : thrown := ErrorObject message.

(** [v.k] for a key [k] that no built-in prototype defines: reading a
    property of [null] or [undefined] raises, a primitive or an array
    has no such property, an object is searched for it. *)
Definition member (v : value) (k : string) : thrown + value :=
  match v with
  | None => inl (TypeError "Cannot read properties of undefined")
  | Some JNull => inl (TypeError "Cannot read properties of null")
  | Some (JObject fields) => inr (assoc k fields)
  | Some _ => inr None
  end.

(** [v?.k]: [undefined] when [v] is [null] or [undefined]. *)
Definition member_opt (v : value) (k : string) : value :=
  match v with
  | Some (JObject fields) => assoc k fields
  | _ => None
  end.

(** [v[0]]. *)
Definition first (v : value) : thrown + value :=
  match v with
  | None => inl (TypeError "Cannot read properties of undefined")
  | Some JNull => inl (TypeError "Cannot read properties of null")
  | Some (JArray items) => inr (head items)
  | Some (JString s) =>
      inr (match s with
           | String c _ => Some (JString (String c EmptyString))
           | EmptyString => None
           end)
  | Some (JObject fields) => inr (assoc "0" fields)
  | Some _ => inr None
  end.

(** [v.slice(start, stop)]: strings and arrays have the method; on
    anything else the call raises (a parsed object never holds a
    function, so an own property named [slice] is not callable). *)
Definition call_slice (v : value) (start stop : Z) : thrown + json :=
  match v with
  | Some (JString s) => inr (JString (str_slice s start stop))
  | Some (JArray items) => inr (JArray (slice items start stop))
  | None => inl (TypeError "Cannot read properties of undefined")
  | Some JNull => inl (TypeError "Cannot read properties of null")
  | Some _ => inl (TypeError "slice is not a function")
  end.

(** [v?.trim()]: [undefined] on [null] and [undefined], the trimmed
    string on a string, a raise on anything else. *)
Definition call_trim_opt (v : value) : thrown + option string :=
  match v with
  | None | Some JNull => inr None
  | Some (JString s) => inr (Some (trim s))
  | Some _ => inl (TypeError "trim is not a function")
  end.

(** The [length] of a string or of an array. *)
Definition length_of (v : json) : option nat :=
  match v with
  | JString s => Some (String.length s)
  | JArray items => Some (length items)
  | _ => None
  end.

(** *** Numbers *)

(** The binary64 value nearest to an integer. *)
Definition of_Z (z : Z) : float :=
  SF2Prim (binary_normalize FloatOps.prec FloatOps.emax z 0 false).

(** The integer [n] nearest to [10 * m * 2^e], the larger one on a
    tie, as [toFixed] chooses it. *)
Definition tenths (m : positive) (e : Z) : Z :=
  if (0 <=? e)%Z then (10 * Z.pos m * 2 ^ e)%Z
  else ((20 * Z.pos m + 2 ^ (- e)) / 2 ^ (1 - e))%Z.

(** Whether [m * 2^e >= 10^21], above which [toFixed] defers to
    [ToString]. *)
Definition huge (m : positive) (e : Z) : bool :=
  if (0 <=? e)%Z then (10 ^ 21 <=? Z.pos m * 2 ^ e)%Z
  else (10 ^ 21 * 2 ^ (- e) <=? Z.pos m)%Z.

(** The digits of [n / 10], a point, and the digit [n mod 10]. *)
Definition one_decimal (n : Z) : string :=
  pretty (n / 10)%Z +:+ "." +:+ pretty (n mod 10)%Z.

(** [Number.prototype.toFixed(1)]. [to_string] is [Number::toString],
    consulted only at and above [10^21]. *)
Definition toFixed1 (to_string : float -> string) (x : float) : string :=
  match Prim2SF x with
  | S754_nan => "NaN"
  | S754_infinity s => if s then "-Infinity" else "Infinity"
  | S754_zero _ => "0.0"
  | S754_finite s m e =>
      (if s then "-" else "") +:+
      (if huge m e then to_string (PrimFloat.abs x)
       else one_decimal (tenths m e))
  end.

End Js.

(** ** Data model *)

(** Modelled from the spec: the enumeration [MoveClassification] of
    types/enums, whose declaration is not part of the sources at hand.
    Its members are those of the spec's data model and of the label
    table of the move-info panel; it is a string enumeration, so every
    member is truthy. *)
Inductive MoveClassification : Type :=
| Blunder | Mistake | Inaccuracy | Okay | Excellent
| Best | Forced | Opening | Perfect | Splendid.

#[global] Instance MoveClassification_eq_dec : EqDecision MoveClassification.
Proof. solve_decision. Defined.

(** Modelled from the spec: the string a member stands for in a template
    literal, the lower-case name under which the move-info panel looks
    up the icon of a classification. *)
Definition classification_name (c : MoveClassification) : string :=
  match c with
  | Blunder => "blunder" | Mistake => "mistake" | Inaccuracy => "inaccuracy"
  | Okay => "okay" | Excellent => "excellent" | Best => "best"
  | Forced => "forced" | Opening => "opening" | Perfect => "perfect"
  | Splendid => "splendid"
  end.

(** Modelled from the spec: the fields of a scored line of types/eval
    that the services read, a mate distance and a centipawn score, each
    optional. *)
Module LineEval.
Record t : Type := Build { mate : option Z; cp : option Z }.
End LineEval.

(** Modelled from the spec: the fields of [PositionEval] of types/eval
    that the services read. *)
Module PositionEval.
Record t : Type := Build {
  bestMove : option string;
  moveClassification : option MoveClassification;
  opening : option string;
  lines : list LineEval.t
}.
End PositionEval.

(** [fen] and [uciMove] are optional because the request builder reads
    them from arrays that may be shorter than the evaluation trace. *)
Module ExplanationRequest.
Record t : Type := Build {
  fen : option string;
  uciMove : option string;
  moveNumber : nat;
  positionEval : PositionEval.t;
  previousPositionEval : option PositionEval.t;
  classification : MoveClassification;
  opening : option string;
  previousWinPercentage : float;
  currentWinPercentage : float;
  isWhiteMove : bool
}.
End ExplanationRequest.

(** [explanation], [themes] and [classificationReason] hold whatever the
    parsed reply held: the declared types are not checked at run time. *)
Module MoveExplanation.
Record t : Type := Build {
  move : option string;
  uciMove : option string;
  moveNumber : nat;
  explanation : Js.json;
  themes : Js.json;
  classificationReason : Js.json;
  generatedAt : string;
  version : string
}.
End MoveExplanation.

Module GameExplanations.
Record t : Type := Build {
  gameId : Z;
  explanations : gmap nat MoveExplanation.t;
  generatedAt : string;
  version : string
}.
End GameExplanations.

Module BatchExplanationProgress.
Record t : Type := Build {
  total : nat;
  completed : nat;
  current : option string;
  errors : list string
}.
End BatchExplanationProgress.

Module ExplanationSettings.
Record t : Type := Build {
  maxLength : Z;
  explainExcellent : bool;
  explainOpening : bool;
  minEvalChange : float
}.

(** [Partial<ExplanationSettings>]. *)
Record partial : Type := Partial {
  maxLength' : option Z;
  explainExcellent' : option bool;
  explainOpening' : option bool;
  minEvalChange' : option float
}.

Definition no_override : partial := Partial None None None None.

(** [{ ...base, ...over }]. *)
Definition spread (base : t) (over : partial) : t :=
  Build (default (maxLength base) (maxLength' over))
        (default (explainExcellent base) (explainExcellent' over))
        (default (explainOpening base) (explainOpening' over))
        (default (minEvalChange base) (minEvalChange' over)).
End ExplanationSettings.

Definition DEFAULT_SETTINGS : ExplanationSettings.t :=
  ExplanationSettings.Build 150 false false 5%float.

(** ** Collaborators *)

(** The HTTP response as [explainMove] reads it; [body] is what
    [response.json()] settles to. *)
Module Response.
Record t : Type := Build {
  ok : bool;
  status : nat;
  statusText : string;
  body : Js.thrown + Js.json
}.
End Response.

(** The request handed to [fetch]. *)
Module ChatRequest.
Record t : Type := Build {
  url : string;
  authorization : string;
  model : string;
  system : string;
  user : string;
  max_tokens : Z;
  temperature : float
}.
End ChatRequest.

(** The network: what the [n]-th call of [fetch] settles to. *)
Definition network : Type := nat -> ChatRequest.t -> Js.thrown + Response.t.

(** A move of [chess.history({ verbose: true })]. *)
Module VerboseMove.
Record t : Type := Build {
  from : string;
  to : string;
  promotion : option string
}.
End VerboseMove.

Module GameEval.
Record t : Type := Build { positions : list PositionEval.t }.
End GameEval.

Class Externals : Type := {
  (** [JSON.parse], [None] when it raises. *)
  JSON_parse : string -> option Js.json;
  (** [Number::toString] on the numbers [toFixed] does not format. *)
  Number_toString : float -> string;
  (** The chess rules library behind [uciToAlgebraic]: the SAN of the
      move from one square to another (with a promotion piece) in a
      position; [None] when the position or the move is refused. *)
  chess_san : option string -> string -> string -> option string -> option string;
  (** [new Date().toISOString()], by the number of requests sent so far. *)
  clock : nat -> string;
  (** [loadPgn] followed by [history({ verbose: true })]; [None] when
      the PGN is refused. *)
  chess_history : string -> option (list VerboseMove.t);
  (** [chess.fen()] after [reset]: the initial position. *)
  chess_start : string;
  (** [chess.move(move)] in the position with the given FEN: the FEN
      of the position after the move; [None] when the move is refused
      there, in which case [move] raises. *)
  chess_move : string -> VerboseMove.t -> option string;
  (** [getPositionWinPercentage] of engine/helpers/winPercentage. *)
  getPositionWinPercentage : PositionEval.t -> float
}.

(** ** Raising computations *)

Definition bind {E A B : Type} (m : E + A) (k : A -> E + B) : E + B :=
  match m with
  | inl e => inl e
  | inr a => k a
  end.

Notation "'let*' x ':=' m 'in' k" := (bind m (fun x => k))
  (at level 10, x name, m at level 100, k at level 200, only parsing).

(** ** MoveExplainerService *)

Record MoveExplainerService : Type := {
  apiKey : string;
  settings : ExplanationSettings.t
}.

Definition baseUrl : string := "https://api.openai.com/v1/chat/completions".

(** The constructor. *)
Definition new_MoveExplainerService
    (key : string) (over : ExplanationSettings.partial) : MoveExplainerService :=
  {| apiKey := key; settings := ExplanationSettings.spread DEFAULT_SETTINGS over |}.

(** [list.includes(c)]. *)
Definition includes (l : list MoveClassification) (c : MoveClassification) : bool :=
  bool_decide (c ∈ l).

(** [Math.abs(x) >= y]. *)
Definition abs_geb (x y : float) : bool := PrimFloat.leb y (PrimFloat.abs x).

Definition shouldExplainMove (this : MoveExplainerService)
    (classification : MoveClassification) (evalChange : float) : bool :=
  if includes [Blunder; Mistake; Inaccuracy] classification then true
  else if includes [Perfect; Splendid] classification then true
  else if bool_decide (classification = Best) then true
  else if bool_decide (classification = Excellent)
          && ExplanationSettings.explainExcellent (settings this) then true
  else if bool_decide (classification = Opening)
          && ExplanationSettings.explainOpening (settings this) then true
  else if abs_geb evalChange (ExplanationSettings.minEvalChange (settings this)) then true
  else false.

Definition formatEvaluation `{Externals} (line : LineEval.t) : string :=
  match LineEval.mate line with
  | Some mate => "Mate in " +:+ pretty (Z.abs mate)
  | None =>
      match LineEval.cp line with
      | Some cp =>
          let pawns := Js.toFixed1 Number_toString (Js.of_Z cp / 100)%float in
          (if (0 <? cp)%Z then "+" else "") +:+ pawns
      | None => "Unknown"
      end
  end.

(** A line feed and a double quote, for the templates. *)
Definition nl : string := String (Ascii.ascii_of_nat 10) EmptyString.
Definition dq : string := String (Ascii.ascii_of_nat 34) EmptyString.

Definition getClassificationGuidance (classification : MoveClassification) : string :=
  match classification with
  | Blunder =>
      "- What tactical or positional mistake was made" +:+ nl +:+
      "- What the better alternative was"
  | Mistake =>
      "- The inaccuracy in the move" +:+ nl +:+ "- How it worsens the position"
  | Inaccuracy =>
      "- The slight imprecision" +:+ nl +:+ "- What would have been more accurate"
  | Perfect | Splendid =>
      "- The brilliant tactical or positional concept" +:+ nl +:+
      "- Why other moves were inadequate"
  | Best =>
      "- Why this is the engine's top choice" +:+ nl +:+
      "- The key idea behind the move"
  | Excellent =>
      "- The good aspects of this move" +:+ nl +:+ "- How it improves the position"
  | _ =>
      "- The key aspects of this move" +:+ nl +:+ "- Its effect on the position"
  end.

(** [buildPrompt] raises when the position has no scored line: the
    first line is then [undefined] and [formatEvaluation] reads a field
    of it. *)
Definition buildPrompt `{Externals} (this : MoveExplainerService)
    (request : ExplanationRequest.t) : Js.thrown + string :=
  let evalChange :=
    (ExplanationRequest.currentWinPercentage request
     - ExplanationRequest.previousWinPercentage request)%float in
  let evalChangeForPlayer :=
    if ExplanationRequest.isWhiteMove request then evalChange
    else (- evalChange)%float in
  let bestMove := PositionEval.bestMove (ExplanationRequest.positionEval request) in
  let bestEval := head (PositionEval.lines (ExplanationRequest.positionEval request)) in
  let playedMove := ExplanationRequest.uciMove request in
  let name := classification_name (ExplanationRequest.classification request) in
  match bestEval with
  | None => inl (Js.TypeError "Cannot read properties of undefined")
  | Some line =>
      inr ("Position: " +:+ Js.show_opt (ExplanationRequest.fen request) +:+ nl +:+
           "Move played: " +:+ Js.show_opt playedMove +:+
           " (classified as " +:+ name +:+ ")" +:+ nl +:+
           (match ExplanationRequest.opening request with
            | Some o => if decide (o = EmptyString) then "" else "Opening: " +:+ o
            | None => ""
            end) +:+ nl +:+
           nl +:+
           "Stockfish Analysis:" +:+ nl +:+
           "- Best move: " +:+ Js.str_or bestMove "N/A" +:+ nl +:+
           "- Best line evaluation: " +:+ formatEvaluation line +:+ nl +:+
           "- Win probability changed by " +:+
           Js.toFixed1 Number_toString evalChangeForPlayer +:+ "% for " +:+
           (if ExplanationRequest.isWhiteMove request then "White" else "Black") +:+ nl +:+
           nl +:+
           "Explain in 1-2 sentences (max " +:+
           pretty (ExplanationSettings.maxLength (settings this)) +:+
           " chars) why this move is " +:+ name +:+ ". Focus on:" +:+ nl +:+
           getClassificationGuidance (ExplanationRequest.classification request) +:+ nl +:+
           nl +:+
           "Format: {" +:+ dq +:+ "explanation" +:+ dq +:+ ": " +:+ dq +:+ "..." +:+ dq +:+
           ", " +:+ dq +:+ "themes" +:+ dq +:+ ": [" +:+ dq +:+ "theme1" +:+ dq +:+
           ", " +:+ dq +:+ "theme2" +:+ dq +:+ "], " +:+ dq +:+ "reason" +:+ dq +:+ ": " +:+
           dq +:+ "why it's " +:+ name +:+ dq +:+ "}")
  end.

(** [str[4]] when [str.length === 5]. *)
Definition fifth (s : string) : option string :=
  if decide (String.length s = 5) then Some (Js.str_take 1 (Js.str_drop 4 s)) else None.

(** [uciToAlgebraic]: everything in it runs inside a [try]; reading
    [slice] of an absent move raises there and the absent move is
    returned. *)
Definition uciToAlgebraic `{Externals}
    (uciMove : option string) (fen : option string) : option string :=
  match uciMove with
  | None => None
  | Some uci =>
      match chess_san fen (Js.str_slice uci 0 2) (Js.str_slice uci 2 4) (fifth uci) with
      | Some san => Some san
      | None => Some uci
      end
  end.

(** The [try] block of [parseResponse]; [now] is the timestamp. *)
Definition parse_structured `{Externals} (this : MoveExplainerService)
    (content : string) (request : ExplanationRequest.t) (now : string)
    : Js.thrown + MoveExplanation.t :=
  match JSON_parse content with
  | None => inl (Js.ErrorObject "Unexpected token in JSON")
  | Some parsed =>
      let move := uciToAlgebraic (ExplanationRequest.uciMove request)
                                 (ExplanationRequest.fen request) in
      let* field := Js.member (Some parsed) "explanation" in
      let* explanation :=
        Js.call_slice field 0 (ExplanationSettings.maxLength (settings this)) in
      let* themes := Js.member (Some parsed) "themes" in
      let* reason := Js.member (Some parsed) "reason" in
      inr (MoveExplanation.Build
             move
             (ExplanationRequest.uciMove request)
             (ExplanationRequest.moveNumber request)
             explanation
             (Js.or_else themes (Js.JArray []))
             (Js.or_else reason (Js.JString ""))
             now
             "1.0")
  end.

(** The [catch] block of [parseResponse]. *)
Definition parse_fallback `{Externals} (this : MoveExplainerService)
    (content : string) (request : ExplanationRequest.t) (now : string)
    : Js.thrown + MoveExplanation.t :=
  let move := uciToAlgebraic (ExplanationRequest.uciMove request)
                             (ExplanationRequest.fen request) in
  let* explanation :=
    Js.call_slice (Some (Js.JString content)) 0
                  (ExplanationSettings.maxLength (settings this)) in
  inr (MoveExplanation.Build
         move
         (ExplanationRequest.uciMove request)
         (ExplanationRequest.moveNumber request)
         explanation
         (Js.JArray [])
         (Js.JString ("Move classified as " +:+
                      classification_name (ExplanationRequest.classification request)))
         now
         "1.0").

Definition parseResponse `{Externals} (this : MoveExplainerService)
    (content : string) (request : ExplanationRequest.t) (now : string)
    : Js.thrown + MoveExplanation.t :=
  match parse_structured this content request now with
  | inr explanation => inr explanation
  | inl _ => parse_fallback this content request now
  end.

(** Where a call of [explainMove] failed. [RemoteServiceError] is the
    [Error] raised on a response that is not [ok], [EmptyResponseError]
    the one raised on absent content; the others carry what was raised
    by the prompt builder, the transport, the body decoder, a property
    access on the decoded body, or the reply parser. *)
Inductive failure : Type :=
| PromptFailed (e : Js.thrown)
| FetchRejected (e : Js.thrown)
| RemoteServiceError (status : nat) (statusText : string)
| BodyRejected (e : Js.thrown)
| ReplyMalformed (e : Js.thrown)
| EmptyResponseError
| ParserFailed (e : Js.thrown).

(** The value a failure rejects the promise with. *)
Definition failure_thrown (f : failure) : Js.thrown :=
  match f with
  | RemoteServiceError status statusText =>
      Js.ErrorObject ("OpenAI API error: " +:+ pretty status +:+ " " +:+ statusText)
  | EmptyResponseError => Js.ErrorObject "No explanation generated"
  | PromptFailed e | FetchRejected e | BodyRejected e
  | ReplyMalformed e | ParserFailed e => e
  end.

#[local] Set Warnings "-inexact-float".
Definition chat_request (this : MoveExplainerService) (prompt : string) : ChatRequest.t :=
  ChatRequest.Build
    baseUrl
    ("Bearer " +:+ apiKey this)
    "gpt-4o-mini"
    ("You are a chess expert explaining moves based on Stockfish analysis. " +:+
     "Provide concise, educational explanations focused on why moves are good " +:+
     "or bad according to the engine evaluation.")
    prompt
    200
    0.3%float.
#[local] Set Warnings "+inexact-float".

(** [data.choices[0]?.message?.content?.trim()]. *)
Definition message_content (data : Js.json) : Js.thrown + option string :=
  let* choices := Js.member (Some data) "choices" in
  let* choice := Js.first choices in
  let message := Js.member_opt choice "message" in
  let content := Js.member_opt message "content" in
  Js.call_trim_opt content.

(** [!content]. *)
Definition absent (content : option string) : bool :=
  match content with
  | Some s => bool_decide (s = EmptyString)
  | None => true
  end.

(** [explainMove], threading the number of requests sent so far: the
    outcome and the number of requests sent after it. *)
Definition explainMove `{Externals} (this : MoveExplainerService) (net : network)
    (request : ExplanationRequest.t) (sent : nat)
    : (failure + MoveExplanation.t) * nat :=
  match buildPrompt this request with
  | inl e => (inl (PromptFailed e), sent)
  | inr prompt =>
      match net sent (chat_request this prompt) with
      | inl e => (inl (FetchRejected e), S sent)
      | inr response =>
          if negb (Response.ok response) then
            (inl (RemoteServiceError (Response.status response)
                                     (Response.statusText response)), S sent)
          else
            match Response.body response with
            | inl e => (inl (BodyRejected e), S sent)
            | inr data =>
                match message_content data with
                | inl e => (inl (ReplyMalformed e), S sent)
                | inr content =>
                    if absent content then (inl EmptyResponseError, S sent)
                    else
                      match parseResponse this (default "" content) request
                                          (clock (S sent)) with
                      | inl e => (inl (ParserFailed e), S sent)
                      | inr explanation => (inr explanation, S sent)
                      end
                end
            end
      end
  end.

(** ** The batch dispatcher *)

(** What a run of [batchExplainMoves] does that can be seen from
    outside, in order. [Progress] carries the snapshot passed to
    [onProgress] and, beside it, the value of [results] at that time
    (which the callback does not receive). *)
Inductive event : Type :=
| Called (request : ExplanationRequest.t)
| Progress (snapshot : BatchExplanationProgress.t) (results : list MoveExplanation.t)
| Paused (milliseconds : nat).

(** The variables of [batchExplainMoves], the number of requests sent
    and the events so far. *)
Record batch_state : Type := BatchState {
  results : list MoveExplanation.t;
  errors : list string;
  completed : nat;
  sent : nat;
  log : list event
}.

(** The order in which the rejections of one window are caught: given
    the window's first index and the messages in request order, the
    messages in the order in which they are pushed. *)
Definition scheduler : Type := Z -> list string -> list string.

(** The message pushed by the [catch] of a batch item. *)
Definition error_message (request : ExplanationRequest.t) (f : failure) : string :=
  "Move " +:+ pretty (ExplanationRequest.moveNumber request) +:+ ": " +:+
  match failure_thrown f with
  | Js.ErrorObject message => message
  | Js.OtherValue => "Unknown error"
  end.

(** [batch.map(...)]: every item calls [explainMove] in turn, before
    any of the calls settles. Yields each item with its outcome, and
    the number of requests sent after the last call. *)
Fixpoint call_all `{Externals} (this : MoveExplainerService) (net : network)
    (batch : list ExplanationRequest.t) (sent : nat)
    : list (ExplanationRequest.t * (failure + MoveExplanation.t)) * nat :=
  match batch with
  | [] => ([], sent)
  | request :: rest =>
      let '(outcome, sent') := explainMove this net request sent in
      let '(outcomes, sent'') := call_all this net rest sent' in
      ((request, outcome) :: outcomes, sent'')
  end.

(** The messages of the items that failed, in request order. *)
Fixpoint failures (outcomes : list (ExplanationRequest.t * (failure + MoveExplanation.t)))
    : list string :=
  match outcomes with
  | [] => []
  | (request, inl f) :: rest => error_message request f :: failures rest
  | (_, inr _) :: rest => failures rest
  end.

(** One turn of [for (const result of batchResults)]. The snapshot
    holds the array [errors] itself; the event records what the array
    holds when the callback is called. *)
Definition report (total : nat) (onProgress : bool)
    (st : batch_state) (result : failure + MoveExplanation.t) : batch_state :=
  let results' :=
    match result with
    | inr explanation => results st ++ [explanation]
    | inl _ => results st
    end in
  let completed' := S (completed st) in
  let snapshot :=
    BatchExplanationProgress.Build
      total
      completed'
      (match result with
       | inr explanation => Some ("Move " +:+ pretty (MoveExplanation.moveNumber explanation))
       | inl _ => None
       end)
      (errors st) in
  BatchState results' (errors st) completed' (sent st)
             (if onProgress then log st ++ [Progress snapshot results'] else log st).

(** One turn of the outer loop, at index [i]. *)
Definition window `{Externals} (this : MoveExplainerService) (net : network)
    (order : scheduler) (requests : list ExplanationRequest.t) (onProgress : bool)
    (concurrency : Z) (i : Z) (st : batch_state) : batch_state :=
  let batch := Js.slice requests i (i + concurrency) in
  let '(outcomes, sent') := call_all this net batch (sent st) in
  let st2 := BatchState (results st) (errors st ++ order i (failures outcomes))
                        (completed st) sent' (log st ++ map Called batch) in
  let st3 := foldl (report (length requests) onProgress) st2 (outcomes.*2) in
  if (i + concurrency <? Z.of_nat (length requests))%Z then
    BatchState (results st3) (errors st3) (completed st3) (sent st3)
               (log st3 ++ [Paused 100])
  else st3.

(** The outer loop from index [i]; the flag tells whether the loop was
    left within [fuel] turns. *)
Fixpoint batch_loop `{Externals} (this : MoveExplainerService) (net : network)
    (order : scheduler) (requests : list ExplanationRequest.t) (onProgress : bool)
    (concurrency : Z) (fuel : nat) (i : Z) (st : batch_state) : batch_state * bool :=
  if (i <? Z.of_nat (length requests))%Z then
    match fuel with
    | O => (st, false)
    | S fuel' =>
        batch_loop this net order requests onProgress concurrency fuel'
                   (i + concurrency)%Z
                   (window this net order requests onProgress concurrency i st)
    end
  else (st, true).

(** A run: the state reached, and the returned list if the run returned. *)
Record batch_run : Type := BatchRun {
  final : batch_state;
  returned : option (list MoveExplanation.t)
}.

(** [batchExplainMoves]; [sent0] is the number of requests sent before
    the run. [onProgress] tells whether a callback was passed. *)
Definition batchExplainMoves `{Externals} (this : MoveExplainerService) (net : network)
    (order : scheduler) (sent0 : nat) (requests : list ExplanationRequest.t)
    (onProgress : bool) (concurrency : Z) (fuel : nat) : batch_run :=
  let '(st, finished) :=
    batch_loop this net order requests onProgress concurrency fuel 0
               (BatchState [] [] 0 sent0 []) in
  BatchRun st (if finished then Some (results st) else None).

(** The snapshots passed to [onProgress], in order, each with the
    accumulated results at the time. *)
Fixpoint snapshots (l : list event)
    : list (BatchExplanationProgress.t * list MoveExplanation.t) :=
  match l with
  | [] => []
  | Progress snapshot acc :: rest => (snapshot, acc) :: snapshots rest
  | _ :: rest => snapshots rest
  end.

(** ** GameExplanationService *)

Record GameExplanationService : Type := {
  explainerService : MoveExplainerService
}.

Definition new_GameExplanationService (key : string) : GameExplanationService :=
  {| explainerService := new_MoveExplainerService key ExplanationSettings.no_override |}.

(** [for (let i = from; i < to; i++) state = body i state]. *)
Definition for_range {S : Type} (from to : nat) (body : nat -> S -> S) (init : S) : S :=
  foldl (fun state i => body i state) init (seq from (to - from)).

(** [Math.abs(current - previous)] of the win percentages. *)
Definition winChange `{Externals} (position previousPosition : PositionEval.t) : float :=
  PrimFloat.abs (getPositionWinPercentage position
                 - getPositionWinPercentage previousPosition)%float.

Definition buildExplanationRequests `{Externals} (this : GameExplanationService)
    (fens uciMoves : list string) (positions : list PositionEval.t)
    : list ExplanationRequest.t :=
  for_range 1 (length positions)
    (fun i requests =>
       match positions !! i, positions !! (i - 1) with
       | Some position, Some previousPosition =>
           match PositionEval.moveClassification position with
           | None => requests
           | Some classification =>
               let previousWinPercentage := getPositionWinPercentage previousPosition in
               let currentWinPercentage := getPositionWinPercentage position in
               let evalChange :=
                 PrimFloat.abs (currentWinPercentage - previousWinPercentage)%float in
               if shouldExplainMove (explainerService this) classification evalChange
               then
                 requests ++
                 [ExplanationRequest.Build
                    (fens !! (i - 1))
                    (uciMoves !! (i - 1))
                    i
                    position
                    (Some previousPosition)
                    classification
                    (PositionEval.opening position)
                    previousWinPercentage
                    currentWinPercentage
                    (bool_decide (i mod 2 = 1))]
               else requests
           end
       | _, _ => requests
       end)
    [].

Module ExplanationStats.
Record t : Type := Build {
  totalMoves : Z;
  movesToExplain : nat;
  byClassification : gmap string nat
}.
End ExplanationStats.

Definition getExplanationStats `{Externals} (this : GameExplanationService)
    (gameEval : GameEval.t) : ExplanationStats.t :=
  let positions := GameEval.positions gameEval in
  for_range 1 (length positions)
    (fun i stats =>
       match positions !! i, positions !! (i - 1) with
       | Some position, Some previousPosition =>
           match PositionEval.moveClassification position with
           | None => stats
           | Some classification =>
               let key := classification_name classification in
               let byClassification' :=
                 <[key := default 0 (ExplanationStats.byClassification stats !! key) + 1]>
                   (ExplanationStats.byClassification stats) in
               let previousWinPercentage := getPositionWinPercentage previousPosition in
               let currentWinPercentage := getPositionWinPercentage position in
               let evalChange :=
                 PrimFloat.abs (currentWinPercentage - previousWinPercentage)%float in
               ExplanationStats.Build
                 (ExplanationStats.totalMoves stats)
                 (if shouldExplainMove (explainerService this) classification evalChange
                  then S (ExplanationStats.movesToExplain stats)
                  else ExplanationStats.movesToExplain stats)
                 byClassification'
           end
       | _, _ => stats
       end)
    (ExplanationStats.Build (Z.of_nat (length positions) - 1) 0 ∅).

(** The loop of [explainGame] over the history: each move is played
    on the board and the position after it is pushed; [None] when
    [chess.move] raises. *)
Fixpoint replay `{Externals} (position : string) (history : list VerboseMove.t)
    : option (list string) :=
  match history with
  | [] => Some []
  | move :: rest =>
      match chess_move position move with
      | None => None
      | Some next =>
          match replay next rest with
          | None => None
          | Some fens => Some (next :: fens)
          end
      end
  end.

(** The positions and the moves [explainGame] collects from a history:
    the position after [reset], then the positions of the replay. *)
Definition collect_fens `{Externals} (history : list VerboseMove.t)
    : option (list string) :=
  match replay chess_start history with
  | None => None
  | Some fens => Some (chess_start :: fens)
  end.

Definition collect_uciMoves (history : list VerboseMove.t) : list string :=
  map (fun move => VerboseMove.from move +:+ VerboseMove.to move +:+
                   Js.str_or (VerboseMove.promotion move) "")
      history.

(** [explanationMap[explanation.moveNumber] = explanation], in order. *)
Definition explanation_map (explanations : list MoveExplanation.t)
    : gmap nat MoveExplanation.t :=
  foldl (fun m explanation => <[MoveExplanation.moveNumber explanation := explanation]> m)
        ∅ explanations.

(** The outcome of [explainGame]: the events of the batch and the
    aggregate, if the batch returned. *)
Record game_run : Type := GameRun {
  events : list event;
  aggregate : option GameExplanations.t
}.

(** [explainGame]; it raises when the PGN is refused, and when a move
    of the loaded history is refused on the board that was reset to the
    initial position (a game that starts from another position). The
    batch runs with the default concurrency of [batchExplainMoves]. *)
Definition explainGame `{Externals} (this : GameExplanationService) (net : network)
    (order : scheduler) (sent0 : nat) (gameId : Z) (pgn : string)
    (gameEval : GameEval.t) (onProgress : bool) : Js.thrown + game_run :=
  match chess_history pgn with
  | None => inl (Js.ErrorObject "Invalid PGN")
  | Some history =>
      match collect_fens history with
      | None => inl (Js.ErrorObject "Invalid move")
      | Some fens =>
          let uciMoves := collect_uciMoves history in
          let requests :=
            buildExplanationRequests this fens uciMoves (GameEval.positions gameEval) in
          let run := batchExplainMoves (explainerService this) net order sent0 requests
                                       onProgress 3 (S (length requests)) in
          inr (GameRun
                 (log (final run))
                 (match returned run with
                  | Some explanations =>
                      Some (GameExplanations.Build
                              gameId
                              (explanation_map explanations)
                              (clock (sent (final run)))
                              "1.0")
                  | None => None
                  end))
      end
  end.

(** ** One move of a game *)

(** [explainSingleMove]: [null] ([inr None]) when the position has no
    classification or the policy rejects the move, and otherwise the
    outcome of [explainMove] on the request it builds. The evaluation
    before the move is optional; without it the win percentage before
    the move is 50. *)
Definition explainSingleMove `{Externals} (this : GameExplanationService) (net : network)
    (fen uciMove : string) (moveNumber : nat) (positionEval : PositionEval.t)
    (previousPositionEval : option PositionEval.t) (sent : nat)
    : (failure + option MoveExplanation.t) * nat :=
  match PositionEval.moveClassification positionEval with
  | None => (inr None, sent)
  | Some classification =>
      let previousWinPercentage :=
        match previousPositionEval with
        | Some previous => getPositionWinPercentage previous
        | None => 50%float
        end in
      let currentWinPercentage := getPositionWinPercentage positionEval in
      let evalChange :=
        PrimFloat.abs (currentWinPercentage - previousWinPercentage)%float in
      if negb (shouldExplainMove (explainerService this) classification evalChange)
      then (inr None, sent)
      else
        let request :=
          ExplanationRequest.Build
            (Some fen)
            (Some uciMove)
            moveNumber
            positionEval
            previousPositionEval
            classification
            (PositionEval.opening positionEval)
            previousWinPercentage
            currentWinPercentage
            (bool_decide (moveNumber mod 2 = 1)) in
        let '(outcome, sent') := explainMove (explainerService this) net request sent in
        (match outcome with
         | inl f => inl f
         | inr explanation => inr (Some explanation)
         end, sent')
  end.

(** ** The hook [useExplanations] *)

(** [currentMoveExplanation]: the explanation of the move being viewed.
    [currentMoveIdx] is absent when there is no current position or the
    position has no index; an index of 0 is falsy. *)
Definition currentMoveExplanation (gameExplanations : option GameExplanations.t)
    (currentMoveIdx : option nat) : option MoveExplanation.t :=
  match gameExplanations, currentMoveIdx with
  | Some g, Some idx =>
      if bool_decide (idx = 0) then None
      else GameExplanations.explanations g !! idx
  | _, _ => None
  end.

Definition getMoveExplanation (gameExplanations : option GameExplanations.t)
    (moveNumber : nat) : option MoveExplanation.t :=
  match gameExplanations with
  | Some g => GameExplanations.explanations g !! moveNumber
  | None => None
  end.

(** [Object.keys(explanations).length]. *)
Definition explanationCount (gameExplanations : option GameExplanations.t) : nat :=
  match gameExplanations with
  | Some g => size (GameExplanations.explanations g)
  | None => 0
  end.

Definition hasExplanations (gameExplanations : option GameExplanations.t) : bool :=
  match gameExplanations with
  | Some g => bool_decide (0 < size (GameExplanations.explanations g))
  | None => false
  end.

(** ** The hook [useGameExplanations] *)

(** The state of the hook: the three [useState] cells and the atom of
    the explanations. *)
Record hook_state : Type := HookState {
  gameExplanations : option GameExplanations.t;
  isGenerating : bool;
  progress : option BatchExplanationProgress.t;
  error : option string
}.

(** What [generateExplanations] reads besides the state: the evaluation
    of the game, [game.pgn()], the key passed and the key of the
    environment, the identifier of the game in the database and
    [Date.now()]. *)
Record hook_inputs : Type := HookInputs {
  gameEval : option GameEval.t;
  pgn : string;
  apiKey_argument : option string;
  apiKey_environment : option string;
  gameFromUrl_id : option Z;
  Date_now : Z
}.

(** [a || b] on optional strings. *)
Definition key_or (a b : option string) : option string :=
  match a with
  | Some s => if decide (s = EmptyString) then b else a
  | None => b
  end.

(** [gameFromUrl?.id || Date.now()]. *)
Definition id_or (id : option Z) (now : Z) : Z :=
  match id with
  | Some z => if decide (z = 0%Z) then now else z
  | None => now
  end.

Definition key_missing_message : string :=
  "OpenAI API key not found. Please set NEXT_PUBLIC_OPENAI_API_KEY in your " +:+
  "environment or pass it as a parameter.".

(** The calls of [setProgress] made by the callback, in order: the
    state after them holds the last snapshot passed. *)
Definition last_progress (previous : option BatchExplanationProgress.t)
    (l : list event) : option BatchExplanationProgress.t :=
  foldl (fun current e =>
           match e with
           | Progress snapshot _ => Some snapshot
           | _ => current
           end) previous l.

(** [generateExplanations]: the state the setters leave when the call
    is over, and the events of the batch it ran. The callback sees the
    state [st] of the render that created it. When [explainGame] does
    not settle the call is never over, and the state is the one reached
    before the [await]. *)
Definition generateExplanations `{Externals} (net : network) (order : scheduler)
    (sent : nat) (inputs : hook_inputs) (st : hook_state) : hook_state * list event :=
  match gameEval inputs with
  | None => (st, [])
  | Some evaluation =>
      if bool_decide (pgn inputs = EmptyString) || isGenerating st then (st, [])
      else
        match key_or (apiKey_argument inputs) (apiKey_environment inputs) with
        | None | Some EmptyString =>
            (HookState (gameExplanations st) (isGenerating st) (progress st)
                       (Some key_missing_message), [])
        | Some key =>
            let started :=
              HookState (gameExplanations st) true
                        (Some (BatchExplanationProgress.Build 0 0 None [])) None in
            let explanationService := new_GameExplanationService key in
            let gameId := id_or (gameFromUrl_id inputs) (Date_now inputs) in
            match explainGame explanationService net order sent gameId (pgn inputs)
                              evaluation true with
            | inl err =>
                let errorMessage :=
                  match err with
                  | Js.ErrorObject message => message
                  | Js.OtherValue => "Failed to generate explanations"
                  end in
                (HookState (gameExplanations started) false None (Some errorMessage), [])
            | inr run =>
                match aggregate run with
                | Some explanations =>
                    (HookState (Some explanations) false None None, events run)
                | None =>
                    (HookState (gameExplanations started) true
                               (last_progress (progress started) (events run))
                               (error started),
                     events run)
                end
            end
        end
  end.

(** [shouldAutoGenerate]. *)
Definition shouldAutoGenerate (inputs : hook_inputs) (st : hook_state) : bool :=
  negb (bool_decide (is_Some (gameExplanations st)))
  && negb (isGenerating st)
  && bool_decide (is_Some (gameEval inputs)).


(** ** The button [ExplainButton] *)

(** Whether the button renders: it renders nothing when
    [!shouldAutoGenerate && !hasExplanations]. *)
Definition explainButton_shown (inputs : hook_inputs) (st : hook_state) : bool :=
  negb (negb (shouldAutoGenerate inputs st)
        && negb (hasExplanations (gameExplanations st))).

(** * Vocabulary of the properties and sample data

    The predicates in which the properties below are stated, and the
    concrete services, games and networks on which they are tried. *)

(** The service [GameExplanationService] builds: default settings. *)
Definition default_service : MoveExplainerService :=
  new_MoveExplainerService "key" ExplanationSettings.no_override.

(** A service that explains excellent moves. *)
Definition excellent_service : MoveExplainerService :=
  new_MoveExplainerService
    "key" (ExplanationSettings.Partial None (Some true) None None).

(** A collaborator set for the examples: the parser knows one reply,
    the chess library knows a game of two moves from the initial
    position and a game of one move from a position that its PGN sets
    up, and a position's win percentage is 50 plus a twentieth of its
    first centipawn score. *)
Definition sample_reply : string :=
  "{" +:+ dq +:+ "explanation" +:+ dq +:+ ": " +:+ dq +:+ "Develops a piece." +:+ dq +:+
  ", " +:+ dq +:+ "themes" +:+ dq +:+ ": [" +:+ dq +:+ "development" +:+ dq +:+ "]}".

Definition start_fen : string :=
  "rnbqkbnr/pppppppp/8/8/8/8/PPPPPPPP/RNBQKBNR w KQkq - 0 1".

Definition fen_after_e4 : string :=
  "rnbqkbnr/pppppppp/8/8/4P3/8/PPPP1PPP/RNBQKBNR b KQkq - 0 1".

Definition fen_after_e4_e5 : string :=
  "rnbqkbnr/pppp1ppp/8/4p3/4P3/8/PPPP1PPP/RNBQKBNR w KQkq - 0 2".

(** A game of one king move from a position of two kings. *)
Definition setup_pgn : string :=
  "[SetUp " +:+ dq +:+ "1" +:+ dq +:+ "]" +:+ nl +:+
  "[FEN " +:+ dq +:+ "4k3/8/8/8/8/8/8/4K3 w - - 0 1" +:+ dq +:+ "]" +:+ nl +:+ nl +:+
  "1. Kd2".

Definition is_move (move : VerboseMove.t) (from to : string) : bool :=
  bool_decide (VerboseMove.from move = from) && bool_decide (VerboseMove.to move = to)
  && bool_decide (VerboseMove.promotion move = None).

#[local] Instance sample_externals : Externals := {|
  JSON_parse content :=
    if decide (content = sample_reply)
    then Some (Js.JObject [("explanation", Js.JString "Develops a piece.");
                           ("themes", Js.JArray [Js.JString "development"])])
    else None;
  Number_toString _ := "1e+21";
  chess_san _ _ _ _ := None;
  clock _ := "2024-01-01T00:00:00.000Z";
  chess_history pgn :=
    if decide (pgn = "1. e4 e5")
    then Some [VerboseMove.Build "e2" "e4" None; VerboseMove.Build "e7" "e5" None]
    else if decide (pgn = setup_pgn)
    then Some [VerboseMove.Build "e1" "d2" None]
    else None;
  chess_start := start_fen;
  chess_move position move :=
    if bool_decide (position = start_fen) && is_move move "e2" "e4"
    then Some fen_after_e4
    else if bool_decide (position = fen_after_e4) && is_move move "e7" "e5"
    then Some fen_after_e4_e5
    else None;
  getPositionWinPercentage position :=
    match head (PositionEval.lines position) with
    | Some (LineEval.Build _ (Some cp)) => (50 + Js.of_Z cp / 20)%float
    | _ => 50%float
    end
|}.

(** A position classified [classification] whose first line scores
    [cp] centipawns, and the request for it as move [n]. *)
Definition sample_position (classification : option MoveClassification) (cp : Z)
    : PositionEval.t :=
  PositionEval.Build (Some "e2e4") classification None [LineEval.Build None (Some cp)].

Definition sample_request (n : nat) : ExplanationRequest.t :=
  ExplanationRequest.Build
    (Some "rnbqkbnr/pppppppp/8/8/8/8/PPPPPPPP/RNBQKBNR w KQkq - 0 1")
    (Some "e2e4") n (sample_position (Some Best) 30) None Best None
    50%float 51.5%float (bool_decide (n mod 2 = 1)).





(** [choices[0]] of a value that can be indexed. *)
Definition choice0 (choices : Js.json) : Js.value :=
  match Js.first (Some choices) with
  | inr v => v
  | inl _ => None
  end.

(** The message content of the first choice, [undefined] when a step
    of the way to it is absent. *)
Definition content_of (choices : Js.json) : Js.value :=
  Js.member_opt (Js.member_opt (choice0 choices) "message") "content".

(** A content that is [undefined], [null] or a string of white space. *)
Definition content_blank (v : Js.value) : Prop :=
  match v with
  | None | Some Js.JNull => True
  | Some (Js.JString s) => Js.trim s = EmptyString
  | Some _ => False
  end.

(** A decoded body that has [choices] and blank content. *)
Definition reply_blank (data : Js.json) : Prop :=
  exists choices : Js.json,
    Js.member (Some data) "choices" = inr (Some choices) /\
    choices <> Js.JNull /\
    content_blank (content_of choices).

(** The specification's words, read strictly: the message content is missing
    (some step of the way to it is absent, [choices] included) or is
    the empty string. *)
Definition content_missing_or_empty (data : Js.json) : Prop :=
  match Js.member_opt (Some data) "choices" with
  | None | Some Js.JNull => True
  | Some choices =>
      match content_of choices with
      | None | Some Js.JNull => True
      | Some (Js.JString s) => s = EmptyString
      | Some _ => False
      end
  end.

(** A decoded body with one choice whose message has the given content. *)
Definition reply_with (content : Js.json) : Js.json :=
  Js.JObject [("choices",
               Js.JArray [Js.JObject [("message", Js.JObject [("content", content)])]])].

(** A network that answers every request alike. *)
Definition constant_network (answer : Js.thrown + Response.t) : network :=
  fun _ _ => answer.

Definition ok_response (data : Js.json) : Response.t :=
  Response.Build true 200 "OK" (inr data).

(** The answer to the one request [explainMove] sends, if it sends it:
    it sends none when the prompt builder raises. *)
Definition answer_to `{Externals} (this : MoveExplainerService) (net : network)
    (request : ExplanationRequest.t) (sent : nat) : option (Js.thrown + Response.t) :=
  match buildPrompt this request with
  | inr prompt => Some (net sent (chat_request this prompt))
  | inl _ => None
  end.

(** Answers for the examples: a server error, a reply of white space,
    and a body with no [choices]. *)
Definition error_network : network :=
  constant_network (inr (Response.Build false 500 "Internal Server Error"
                                        (inl Js.OtherValue))).

Definition blank_network : network :=
  constant_network (inr (ok_response (reply_with (Js.JString "  ")))).

Definition bare_network : network :=
  constant_network (inr (ok_response (Js.JObject []))).

(** A later observation extends an earlier one: no fewer completed, and
    the earlier errors and results at the front of the later ones. *)
Definition grows (a b : BatchExplanationProgress.t * list MoveExplanation.t) : Prop :=
  BatchExplanationProgress.completed a.1 <= BatchExplanationProgress.completed b.1 /\
  BatchExplanationProgress.errors a.1 `prefix_of` BatchExplanationProgress.errors b.1 /\
  a.2 `prefix_of` b.2.

(** The variables of a run as an observation. *)
Definition at_state (total : nat) (st : batch_state)
    : BatchExplanationProgress.t * list MoveExplanation.t :=
  (BatchExplanationProgress.Build total (completed st) None (errors st), results st).

(** How far the loop has come when it is at index [i] with [k] items
    completed, for [n] requests and a step of [c]: with a positive step
    the windows so far cover the first [min i n] requests; with a step
    of zero nothing is ever covered; with a negative step the first
    window covers at most [n] requests and the later ones none. *)
Definition progress_at (c n i : Z) (k : nat) : Prop :=
  (0 < c /\ 0 <= i /\ Z.of_nat k = Z.min i n)%Z \/
  ((c <= 0)%Z /\ ((i = 0%Z /\ k = 0) \/ (i < 0 /\ Z.of_nat k <= n)%Z)).

(** What a run over [n] requests keeps true of the snapshots it has
    passed so far: each has [n] as its total and is extended by the
    variables of the run, and each is extended by the later ones. *)
Definition trace_ok (n : nat) (st : batch_state) : Prop :=
  Forall (fun o => BatchExplanationProgress.total o.1 = n /\ grows o (at_state n st))
         (snapshots (log st)) /\
  forall i j a b,
    i <= j -> snapshots (log st) !! i = Some a -> snapshots (log st) !! j = Some b ->
    grows a b.

(** Move [k] of a trace is accepted: it has a position with a
    classification, and the policy explains that classification at the
    change of win percentage from the position before. *)
Definition accepted `{Externals} (this : GameExplanationService)
    (positions : list PositionEval.t) (k : nat) : Prop :=
  exists position previousPosition classification,
    1 <= k /\
    positions !! k = Some position /\
    positions !! (k - 1) = Some previousPosition /\
    PositionEval.moveClassification position = Some classification /\
    shouldExplainMove (explainerService this) classification
                      (winChange position previousPosition) = true.

(** Move [k] of a trace is excluded: its position lacks a
    classification, or the policy rejects the classification at the
    change of win percentage. *)
Definition excluded `{Externals} (this : GameExplanationService)
    (positions : list PositionEval.t) (k : nat) : Prop :=
  exists position,
    positions !! k = Some position /\
    (PositionEval.moveClassification position = None \/
     exists classification previousPosition,
       PositionEval.moveClassification position = Some classification /\
       positions !! (k - 1) = Some previousPosition /\
       shouldExplainMove (explainerService this) classification
                         (winChange position previousPosition) = false).

(** Every result is the explanation of one of the requests. *)
Definition answers (requests : list ExplanationRequest.t)
    (explanations : list MoveExplanation.t) : Prop :=
  Forall (fun explanation =>
            exists request, request ∈ requests /\
              MoveExplanation.moveNumber explanation
              = ExplanationRequest.moveNumber request)
         explanations.

(** A game of two moves: the first is classified Best, the second Okay
    with a change of a quarter of a percent. *)
Definition sample_game : GameEval.t :=
  GameEval.Build [sample_position None 20;
                  sample_position (Some Best) 30;
                  sample_position (Some Okay) 35].

(** A network that answers every request with the reply the sample
    parser knows. *)
Definition reply_network : network :=
  constant_network (inr (ok_response (reply_with (Js.JString sample_reply)))).

(** Failures are caught in request order. *)
Definition in_order : scheduler := fun _ messages => messages.

(** The explanations among the outcomes of a window, in request order. *)
Fixpoint successes (outcomes : list (failure + MoveExplanation.t))
    : list MoveExplanation.t :=
  match outcomes with
  | [] => []
  | inr explanation :: rest => explanation :: successes rest
  | inl _ :: rest => successes rest
  end.


(** A network whose fifth answer is a server error and whose other
    answers carry the reply the sample parser knows. *)
Definition fifth_fails : network :=
  fun n request => if decide (n = 4) then error_network n request
                   else reply_network n request.


(** Requests for moves 1 to 7. *)
Definition seven_requests : list ExplanationRequest.t :=
  sample_request <$> [1; 2; 3; 4; 5; 6; 7].

(** ** Vocabulary of runs, games and hooks *)

(** The requests that a log shows called, in order. *)
Fixpoint calls (l : list event) : list ExplanationRequest.t :=
  match l with
  | [] => []
  | Called request :: rest => request :: calls rest
  | _ :: rest => calls rest
  end.

(** The number of pauses in a log. *)
Fixpoint pauses (l : list event) : nat :=
  match l with
  | [] => 0
  | Paused _ :: rest => S (pauses rest)
  | _ :: rest => pauses rest
  end.

(** The outcomes of the calls for a list of requests made in order,
    the first when [sent] requests have been sent. *)
Definition outcomes_of `{Externals} (this : MoveExplainerService) (net : network)
    (requests : list ExplanationRequest.t) (sent : nat)
    : list (ExplanationRequest.t * (failure + MoveExplanation.t)) :=
  (call_all this net requests sent).1.

(** Two states of a run that agree but for the snapshots logged, of
    which the second has none. *)
Definition same_but_snapshots (a b : batch_state) : Prop :=
  results a = results b /\ errors a = errors b /\ completed a = completed b /\
  sent a = sent b /\ calls (log a) = calls (log b) /\
  pauses (log a) = pauses (log b) /\ snapshots (log b) = [].

(** The request for move [i] of a trace, if the move is to be
    explained: what one turn of the builder's loop pushes. *)
Definition request_at `{Externals} (this : GameExplanationService)
    (fens uciMoves : list string) (positions : list PositionEval.t) (i : nat)
    : option ExplanationRequest.t :=
  match positions !! i, positions !! (i - 1) with
  | Some position, Some previousPosition =>
      match PositionEval.moveClassification position with
      | Some classification =>
          if shouldExplainMove (explainerService this) classification
                               (winChange position previousPosition)
          then Some (ExplanationRequest.Build
                       (fens !! (i - 1)) (uciMoves !! (i - 1)) i
                       position (Some previousPosition) classification
                       (PositionEval.opening position)
                       (getPositionWinPercentage previousPosition)
                       (getPositionWinPercentage position)
                       (bool_decide (i mod 2 = 1)))
          else None
      | None => None
      end
  | _, _ => None
  end.

(** The positions after the first that carry a given classification. *)
Definition classified (classification : MoveClassification)
    (positions : list PositionEval.t) : list PositionEval.t :=
  filter (fun position =>
            PositionEval.moveClassification position = Some classification)
         (drop 1 positions).

(** The move text [explainGame] derives from a move of the history. *)
Definition uci_of (move : VerboseMove.t) : string :=
  VerboseMove.from move +:+ VerboseMove.to move +:+
  Js.str_or (VerboseMove.promotion move) "".

(** The requests [explainGame] builds from the positions and the
    history of a game and an evaluation. *)
Definition game_requests `{Externals} (this : GameExplanationService)
    (fens : list string) (history : list VerboseMove.t) (gameEval : GameEval.t)
    : list ExplanationRequest.t :=
  buildExplanationRequests this fens (collect_uciMoves history)
                           (GameEval.positions gameEval).

(** What [explainSingleMove] makes of the outcome of [explainMove]. *)
Definition single_outcome (out : (failure + MoveExplanation.t) * nat)
    : (failure + option MoveExplanation.t) * nat :=
  (match out.1 with
   | inl f => inl f
   | inr explanation => inr (Some explanation)
   end, out.2).

(** A request with another evaluation of the previous position. *)
Definition with_previous (previous : option PositionEval.t)
    (r : ExplanationRequest.t) : ExplanationRequest.t :=
  ExplanationRequest.Build
    (ExplanationRequest.fen r) (ExplanationRequest.uciMove r)
    (ExplanationRequest.moveNumber r) (ExplanationRequest.positionEval r)
    previous (ExplanationRequest.classification r) (ExplanationRequest.opening r)
    (ExplanationRequest.previousWinPercentage r)
    (ExplanationRequest.currentWinPercentage r) (ExplanationRequest.isWhiteMove r).

(** Sample data: a request whose position has no line, the two moves
    of the sample game, and a hook that is idle on the sample game with
    a key in the environment. *)
Definition lineless_request : ExplanationRequest.t :=
  ExplanationRequest.Build
    (Some "rnbqkbnr/pppppppp/8/8/8/8/PPPPPPPP/RNBQKBNR w KQkq - 0 1")
    (Some "e2e4") 1 (PositionEval.Build (Some "e2e4") (Some Best) None [])
    None Best None 50%float 51.5%float true.

Definition sample_history : list VerboseMove.t :=
  [VerboseMove.Build "e2" "e4" None; VerboseMove.Build "e7" "e5" None].

Definition sample_inputs : hook_inputs :=
  HookInputs (Some sample_game) "1. e4 e5" None (Some "key") (Some 7%Z) 1700000000000.

Definition idle_hook : hook_state := HookState None false None None.

(** The positions of the sample game, and the game of one move from a
    position set up in its PGN, whose move is refused on the initial
    position. *)
Definition sample_fens : list string := [start_fen; fen_after_e4; fen_after_e4_e5].

Definition setup_history : list VerboseMove.t := [VerboseMove.Build "e1" "d2" None].

Definition setup_inputs : hook_inputs :=
  HookInputs (Some sample_game) setup_pgn None (Some "key") (Some 7%Z) 1700000000000.

(** * Properties *)

(** ** Comparisons of binary64 numbers *)

Lemma SFcompare_swap (x y : spec_float) :
  SFcompare y x = option_map CompOpp (SFcompare x y).
Proof.
  destruct x as [sx|sx| |sx mx ex], y as [sy|sy| |sy my ey]; simpl;
    try reflexivity;
    try (destruct sx; reflexivity);
    try (destruct sy; reflexivity);
    try (destruct sx, sy; reflexivity).
  change (Pos.compare_cont Eq my mx) with (Pos.compare my mx).
  change (Pos.compare_cont Eq mx my) with (Pos.compare mx my).
  rewrite (Z.compare_antisym ex ey), (Pos.compare_antisym mx my).
  destruct sx, sy; try reflexivity;
    destruct (ex ?= ey)%Z; simpl; try reflexivity;
    destruct (mx ?= my)%positive; reflexivity.
Qed.

(** [x < y] excludes [x >= y]. *)
Lemma ltb_true_leb_false (x y : float) :
  PrimFloat.ltb x y = true -> PrimFloat.leb y x = false.
Proof.
  rewrite FloatAxioms.ltb_spec, FloatAxioms.leb_spec. unfold SFltb, SFleb.
  rewrite (SFcompare_swap (Prim2SF x) (Prim2SF y)).
  destruct (SFcompare (Prim2SF x) (Prim2SF y)) as [[]|]; simpl; congruence.
Qed.

(** A number is at most its absolute value. *)
Lemma leb_abs (x : float) :
  PrimFloat.is_nan x = false -> PrimFloat.leb x (PrimFloat.abs x) = true.
Proof.
  unfold PrimFloat.is_nan. rewrite FloatAxioms.eqb_spec, FloatAxioms.leb_spec, FloatAxioms.abs_spec.
  unfold SFeqb, SFleb.
  destruct (Prim2SF x) as [s|s| |s m e]; simpl; try reflexivity; try discriminate.
  - destruct s; reflexivity.
  - intros _. destruct s; [reflexivity|].
    rewrite Z.compare_refl.
    change (Pos.compare_cont Eq m m) with (Pos.compare m m).
    rewrite Pos.compare_refl. reflexivity.
Qed.

(** ** The explanation policy *)

(** The policy as a disjunction of its rules. *)
Lemma shouldExplainMove_rules (this : MoveExplainerService)
    (classification : MoveClassification) (evalChange : float) :
  shouldExplainMove this classification evalChange =
  includes [Blunder; Mistake; Inaccuracy; Perfect; Splendid; Best] classification
  || bool_decide (classification = Excellent)
     && ExplanationSettings.explainExcellent (settings this)
  || bool_decide (classification = Opening)
     && ExplanationSettings.explainOpening (settings this)
  || abs_geb evalChange (ExplanationSettings.minEvalChange (settings this)).
Proof.
  unfold shouldExplainMove.
  destruct classification,
    (ExplanationSettings.explainExcellent (settings this)),
    (ExplanationSettings.explainOpening (settings this)),
    (abs_geb evalChange (ExplanationSettings.minEvalChange (settings this)));
    reflexivity.
Qed.

(** C3, as the claim states it, fails: with the default settings
    ([explainExcellent] and [explainOpening] off, threshold 5) an
    Excellent move and an Opening move whose evaluation changes by 10
    are both explained. *)
Lemma shouldExplainMove_flag_not_decisive :
  ~ (shouldExplainMove default_service Excellent 10 = true <->
     ExplanationSettings.explainExcellent (settings default_service) = true) /\
  ~ (shouldExplainMove default_service Opening 10 = true <->
     ExplanationSettings.explainOpening (settings default_service) = true).
Proof.
  split; intros [H _]; specialize (H eq_refl); vm_compute in H; discriminate.
Qed.

(** C3, amended: the rules are tried in order and the first that
    applies decides, and the rule of a clear flag does not apply; so an
    Excellent move is explained exactly when [explainExcellent] is on
    or the absolute evaluation change reaches [minEvalChange], and an
    Opening move exactly when [explainOpening] is on or the change
    reaches the threshold. *)
Theorem shouldExplainMove_flagged (this : MoveExplainerService) (evalChange : float) :
  shouldExplainMove this Excellent evalChange =
    ExplanationSettings.explainExcellent (settings this)
    || abs_geb evalChange (ExplanationSettings.minEvalChange (settings this)) /\
  shouldExplainMove this Opening evalChange =
    ExplanationSettings.explainOpening (settings this)
    || abs_geb evalChange (ExplanationSettings.minEvalChange (settings this)).
Proof.
  rewrite !shouldExplainMove_rules. split.
  - change (includes _ Excellent) with false.
    rewrite (bool_decide_eq_true_2 (Excellent = Excellent)) by reflexivity.
    rewrite (bool_decide_eq_false_2 (Excellent = Opening)) by discriminate.
    simpl. rewrite orb_false_r. reflexivity.
  - change (includes _ Opening) with false.
    rewrite (bool_decide_eq_false_2 (Opening = Excellent)) by discriminate.
    rewrite (bool_decide_eq_true_2 (Opening = Opening)) by reflexivity.
    reflexivity.
Qed.

(** C4: a Blunder, Mistake, Inaccuracy, Perfect, Splendid or Best move
    is explained under every setting and for every evaluation change
    (not-a-number and the infinities included). *)
Theorem shouldExplainMove_always (this : MoveExplainerService) (evalChange : float) :
  Forall (fun classification => shouldExplainMove this classification evalChange = true)
         [Blunder; Mistake; Inaccuracy; Perfect; Splendid; Best].
Proof. repeat constructor. Qed.

(** C5: with [explainExcellent] off an Excellent move is not explained
    when the absolute evaluation change is below [minEvalChange] and is
    explained when it reaches it; with the flag on it is explained for
    every change; and the comparison is inclusive: whatever the
    classification (Okay among them), a change equal to a threshold
    that is a number is explained. *)
Theorem shouldExplainMove_threshold (this : MoveExplainerService) (evalChange : float) :
  let threshold := ExplanationSettings.minEvalChange (settings this) in
  let flag := ExplanationSettings.explainExcellent (settings this) in
  (flag = false -> PrimFloat.ltb (PrimFloat.abs evalChange) threshold = true ->
   shouldExplainMove this Excellent evalChange = false) /\
  (flag = false -> PrimFloat.leb threshold (PrimFloat.abs evalChange) = true ->
   shouldExplainMove this Excellent evalChange = true) /\
  (flag = true -> shouldExplainMove this Excellent evalChange = true) /\
  (PrimFloat.is_nan threshold = false ->
   forall classification, shouldExplainMove this classification threshold = true).
Proof.
  intros threshold flag.
  assert (HE : shouldExplainMove this Excellent evalChange =
               flag || PrimFloat.leb threshold (PrimFloat.abs evalChange)).
  { rewrite shouldExplainMove_rules. unfold flag, threshold.
    destruct (ExplanationSettings.explainExcellent (settings this)); reflexivity. }
  repeat split.
  - intros Hf Hlt. rewrite HE, Hf, (ltb_true_leb_false _ _ Hlt). reflexivity.
  - intros Hf Hge. rewrite HE, Hf, Hge. reflexivity.
  - intros Hf. rewrite HE, Hf. reflexivity.
  - intros Hnan classification. rewrite shouldExplainMove_rules.
    fold threshold. unfold abs_geb. rewrite (leb_abs _ Hnan).
    apply orb_true_r.
Qed.

(** The default service at an Excellent move: a change of 3 is not
    explained, a change of 5 is, and so is an Okay move at 5; with
    [explainExcellent] on, an Excellent move with no change is
    explained. *)
Lemma shouldExplainMove_threshold_witness :
  shouldExplainMove default_service Excellent 3 = false /\
  shouldExplainMove default_service Excellent 5 = true /\
  shouldExplainMove default_service Okay 5 = true /\
  shouldExplainMove excellent_service Excellent 0 = true.
Proof.
  pose proof (shouldExplainMove_threshold default_service 3) as (H1 & _ & _ & H4).
  pose proof (shouldExplainMove_threshold default_service 5) as (_ & H2 & _ & _).
  pose proof (shouldExplainMove_threshold excellent_service 0) as (_ & _ & H3 & _).
  split; [apply H1; reflexivity|].
  split; [apply H2; reflexivity|].
  split; [apply (H4 eq_refl)|].
  apply H3. reflexivity.
Defined.

(** ** Evaluation formatting *)




(** ** Reply parsing *)

Lemma str_take_length (n : nat) (s : string) :
  String.length (Js.str_take n s) = Nat.min n (String.length s).
Proof.
  revert s; induction n as [|n IH]; intros [|c r]; simpl; try reflexivity.
  rewrite IH. reflexivity.
Qed.

Lemma str_take_min (n : nat) (s : string) :
  Js.str_take (Nat.min n (String.length s)) s = Js.str_take n s.
Proof.
  revert s; induction n as [|n IH]; intros [|c r]; simpl; try reflexivity.
  rewrite IH. reflexivity.
Qed.

(** [slice(0, n)] with [n >= 0] counts [min n len] elements from 0. *)
Lemma slice_prefix_bounds (len n : Z) :
  (0 <= len)%Z -> (0 <= n)%Z ->
  Js.slice_from len 0 = 0 /\
  Js.slice_count len 0 n = Nat.min (Z.to_nat n) (Z.to_nat len).
Proof.
  intros Hlen Hn. unfold Js.slice_from, Js.slice_count, Js.clamp.
  destruct (Z.ltb_spec 0 0); [lia|].
  destruct (Z.ltb_spec n 0); [lia|].
  split; lia.
Qed.

(** [s.slice(0, n)] keeps the first [n] characters. *)
Lemma str_slice_prefix (s : string) (n : Z) :
  (0 <= n)%Z -> Js.str_slice s 0 n = Js.str_take (Z.to_nat n) s.
Proof.
  intros Hn. unfold Js.str_slice.
  destruct (slice_prefix_bounds (Z.of_nat (String.length s)) n) as [-> ->]; [lia..|].
  rewrite Nat2Z.id. simpl. apply str_take_min.
Qed.

(** [l.slice(0, n)] keeps the first [n] elements. *)
Lemma slice_prefix {A : Type} (l : list A) (n : Z) :
  (0 <= n)%Z -> Js.slice l 0 n = take (Z.to_nat n) l.
Proof.
  intros Hn. unfold Js.slice.
  destruct (slice_prefix_bounds (Z.of_nat (length l)) n) as [-> ->]; [lia..|].
  rewrite Nat2Z.id, drop_0.
  destruct (Nat.min_spec (Z.to_nat n) (length l)) as [[_ ->]|[Hle ->]];
    [reflexivity|].
  rewrite !take_ge by lia. reflexivity.
Qed.

(** What [slice(0, n)] returns is a string or an array of length at
    most [n]. *)
Lemma call_slice_bounded (v : Js.value) (n : Z) (r : Js.json) :
  (0 <= n)%Z -> Js.call_slice v 0 n = inr r ->
  exists k : nat, Js.length_of r = Some k /\ (Z.of_nat k <= n)%Z.
Proof.
  intros Hn. destruct v as [[]|]; simpl; intros [= <-]; simpl.
  - rewrite str_slice_prefix by assumption. eexists; split; [reflexivity|].
    rewrite str_take_length. lia.
  - rewrite slice_prefix by assumption. eexists; split; [reflexivity|].
    rewrite length_take. lia.
Qed.

Section Parsing.
Context `{Externals}.
Variables (this : MoveExplainerService) (content : string).
Variables (request : ExplanationRequest.t) (now : string).

Local Abbreviation limit := (ExplanationSettings.maxLength (settings this)) (only parsing).


(** The [catch] block returns. *)
Lemma parse_fallback_inr :
  parse_fallback this content request now =
  inr (MoveExplanation.Build
         (uciToAlgebraic (ExplanationRequest.uciMove request)
                         (ExplanationRequest.fen request))
         (ExplanationRequest.uciMove request)
         (ExplanationRequest.moveNumber request)
         (Js.JString (Js.str_slice content 0 limit))
         (Js.JArray [])
         (Js.JString ("Move classified as " +:+
                      classification_name (ExplanationRequest.classification request)))
         now
         "1.0").
Proof. reflexivity. Qed.

(** The parser returns whatever the [try] block does. *)
Lemma parseResponse_inr :
  exists result, parseResponse this content request now = inr result.
Proof.
  unfold parseResponse.
  destruct (parse_structured this content request now) as [e|r].
  - rewrite parse_fallback_inr. eauto.
  - eauto.
Qed.


End Parsing.



(** ** The remote call *)

Lemma message_content_blank (data : Js.json) :
  (exists content, message_content data = inr content /\ absent content = true)
  <-> reply_blank data.
Proof.
  unfold message_content, reply_blank. split.
  - intros (content & Hm & Ha).
    destruct (Js.member (Some data) "choices") as [e|[choices|]] eqn:Hc;
      unfold bind in Hm; try discriminate.
    exists choices. split; [reflexivity|].
    assert (Hn : choices <> Js.JNull) by (intros ->; discriminate).
    split; [assumption|].
    unfold content_of, choice0.
    destruct (Js.first (Some choices)) as [e|choice]; [discriminate|].
    destruct (Js.member_opt (Js.member_opt choice "message") "content") as [[]|];
      simpl in *; try discriminate; try exact I.
    injection Hm as <-. simpl in Ha. apply bool_decide_eq_true_1 in Ha. exact Ha.
  - intros (choices & -> & Hn & Hb). unfold bind.
    unfold content_of, choice0 in Hb.
    destruct (Js.first (Some choices)) as [e|choice] eqn:Hf.
    { destruct choices; simpl in Hf; congruence. }
    destruct (Js.member_opt (Js.member_opt choice "message") "content") as [[]|];
      simpl in *; try contradiction.
    + exists None. auto.
    + eexists; split; [reflexivity|]. simpl. apply bool_decide_eq_true_2. exact Hb.
    + exists None. auto.
Qed.

Section RemoteCall.
Context `{Externals}.
Variables (this : MoveExplainerService) (net : network).
Variables (request : ExplanationRequest.t) (sent : nat).

(** C7, amended: [explainMove] fails with [RemoteServiceError], whose
    message carries the status code and the status text, exactly when
    the request it sent is answered by a response that is not [ok]; it
    fails with [EmptyResponseError] exactly when the answer is an [ok]
    response whose decoded body has [choices] and a first-choice message
    content that is [undefined], [null] or a string of white space;
    either failure is the outcome of the call, and the call sends one
    request, or none when the prompt builder raises. *)
Theorem explainMove_failures :
  let run := explainMove this net request sent in
  let answer := answer_to this net request sent in
  (forall status statusText,
     run.1 = inl (RemoteServiceError status statusText) <->
     exists response,
       answer = Some (inr response) /\ Response.ok response = false /\
       Response.status response = status /\
       Response.statusText response = statusText) /\
  (forall status statusText,
     failure_thrown (RemoteServiceError status statusText) =
     Js.ErrorObject ("OpenAI API error: " +:+ pretty status +:+ " " +:+ statusText)) /\
  (run.1 = inl EmptyResponseError <->
   exists response data,
     answer = Some (inr response) /\ Response.ok response = true /\
     Response.body response = inr data /\ reply_blank data) /\
  run.2 = match answer with Some _ => S sent | None => sent end.
Proof.
  unfold explainMove, answer_to.
  destruct (buildPrompt this request) as [e|prompt]; simpl.
  { repeat split; try discriminate; try reflexivity.
    - intros (? & [=] & _).
    - intros (? & ? & [=] & _). }
  destruct (net sent (chat_request this prompt)) as [e|response]; simpl.
  { repeat split; try discriminate; try reflexivity.
    - intros (? & [=] & _).
    - intros (? & ? & [=] & _). }
  destruct (Response.ok response) eqn:Hok; simpl.
  2:{ repeat split; try discriminate; try reflexivity.
      - intros [= <- <-]. exists response. auto.
      - intros (? & [= <-] & _ & <- & <-). reflexivity.
      - intros (? & ? & [= <-] & ? & _). congruence. }
  destruct (Response.body response) as [e|data] eqn:Hbody; simpl.
  { repeat split; try discriminate; try reflexivity.
    - intros (? & [= <-] & ? & _). congruence.
    - intros (? & ? & [= <-] & _ & ? & _). congruence. }
  pose proof (message_content_blank data) as Hblank.
  destruct (message_content data) as [e|content]; simpl.
  { repeat split; try discriminate; try reflexivity.
    - intros (? & [= <-] & ? & _). congruence.
    - intros (response' & data' & [= <-] & _ & Hb & Hr).
      assert (data' = data) as -> by congruence.
      apply Hblank in Hr as (? & [=] & _). }
  destruct (absent content) eqn:Ha; simpl.
  { repeat split; try discriminate; try reflexivity.
    - intros (? & [= <-] & ? & _). congruence.
    - intros _. exists response, data. repeat split; try assumption.
      apply Hblank. eauto. }
  destruct (parseResponse_inr this (default "" content) request (clock (S sent)))
    as (r & ->); simpl.
  repeat split; try discriminate; try reflexivity.
  - intros (? & [= <-] & ? & _). congruence.
  - intros (response' & data' & [= <-] & _ & Hb & Hr).
    assert (data' = data) as -> by congruence.
    apply Hblank in Hr as (? & [= <-] & ?). congruence.
Qed.

End RemoteCall.

(** A response with status 500 fails the call with the error that
    carries 500 and the status text; a reply of two spaces fails it
    with the empty-response error; one request was sent. *)
Lemma explainMove_failures_examples :
  (explainMove default_service error_network (sample_request 1) 0).1
    = inl (RemoteServiceError 500 "Internal Server Error") /\
  (explainMove default_service blank_network (sample_request 1) 0).1
    = inl EmptyResponseError /\
  (explainMove default_service blank_network (sample_request 1) 0).2 = 1.
Proof.
  destruct (explainMove_failures default_service error_network (sample_request 1) 0)
    as (Hremote & _ & _ & _).
  destruct (explainMove_failures default_service blank_network (sample_request 1) 0)
    as (_ & _ & Hempty & Hsent).
  split; [|split].
  - apply Hremote. eexists. split; [vm_compute; reflexivity|]. repeat split.
  - apply Hempty. eexists _, _. split; [vm_compute; reflexivity|].
    split; [reflexivity|]. split; [reflexivity|].
    eexists. split; [reflexivity|]. split; [discriminate|]. vm_compute. reflexivity.
  - rewrite Hsent. vm_compute. reflexivity.
Defined.

(** C7, as the claim states it, fails in both directions. An [ok]
    response whose body is the empty object has no message content, yet
    the call fails with the [TypeError] of reading [choices[0]], not
    with [EmptyResponseError]; and an [ok] response whose content is a
    two-space string, which is neither missing nor empty, fails with
    [EmptyResponseError]. *)
Lemma explainMove_empty_not_exact :
  (content_missing_or_empty (Js.JObject []) /\
   (explainMove default_service bare_network (sample_request 1) 0).1
     = inl (ReplyMalformed (Js.TypeError "Cannot read properties of undefined"))) /\
  (~ content_missing_or_empty (reply_with (Js.JString "  ")) /\
   (explainMove default_service blank_network (sample_request 1) 0).1
     = inl EmptyResponseError).
Proof.
  split; split.
  - exact I.
  - vm_compute. reflexivity.
  - vm_compute. discriminate.
  - vm_compute. reflexivity.
Qed.

(** ** The request builder and the statistics *)

(** An invariant of a [foldl] holds at its end. *)
Lemma foldl_invariant {S A : Type} (P : S -> Prop) (f : S -> A -> S)
    (l : list A) (init : S) :
  P init -> (forall s a, a ∈ l -> P s -> P (f s a)) -> P (foldl f init l).
Proof.
  revert init; induction l as [|a l IH]; intros init H0 Hstep; simpl; [assumption|].
  apply IH.
  - apply Hstep; [left | assumption].
  - intros s b Hb. apply Hstep. right. assumption.
Qed.

(** Two [foldl]s over the same list keep a relation between their states. *)
Lemma foldl_related {S1 S2 A : Type} (R : S1 -> S2 -> Prop)
    (f : S1 -> A -> S1) (g : S2 -> A -> S2) (l : list A) (i1 : S1) (i2 : S2) :
  R i1 i2 -> (forall s1 s2 a, R s1 s2 -> R (f s1 a) (g s2 a)) ->
  R (foldl f i1 l) (foldl g i2 l).
Proof.
  revert i1 i2; induction l as [|a l IH]; intros i1 i2 H0 Hstep; simpl; auto.
Qed.

Section Game.
Context `{Externals}.
Variable this : GameExplanationService.

(** C10: the statistics count as moves to explain exactly as many moves
    as the request builder emits requests for, on the same positions
    and whatever the position and move lists. *)
Theorem movesToExplain_counts_requests (gameEval : GameEval.t)
    (fens uciMoves : list string) :
  ExplanationStats.movesToExplain (getExplanationStats this gameEval) =
  length (buildExplanationRequests this fens uciMoves (GameEval.positions gameEval)).
Proof.
  unfold getExplanationStats, buildExplanationRequests, for_range.
  set (positions := GameEval.positions gameEval).
  apply (foldl_related
           (fun stats requests => ExplanationStats.movesToExplain stats = length requests)).
  - reflexivity.
  - intros stats requests i Hrel.
    destruct (positions !! i) as [position|]; [|exact Hrel].
    destruct (positions !! (i - 1)) as [previousPosition|]; [|exact Hrel].
    destruct (PositionEval.moveClassification position) as [classification|];
      [|exact Hrel].
    simpl.
    destruct (shouldExplainMove _ _ _); [|exact Hrel].
    rewrite length_app. simpl. lia.
Qed.

End Game.

(** ** The batch dispatcher *)

Lemma grows_refl a : grows a a.
Proof. repeat split; reflexivity. Qed.

Lemma grows_trans a b c : grows a b -> grows b c -> grows a c.
Proof.
  intros (H1 & H2 & H3) (H4 & H5 & H6). repeat split;
    [lia | etrans; eassumption | etrans; eassumption].
Qed.

Lemma snapshots_app (l1 l2 : list event) :
  snapshots (l1 ++ l2) = snapshots l1 ++ snapshots l2.
Proof.
  induction l1 as [|[] l1 IH]; simpl; rewrite ?IH; reflexivity.
Qed.

Lemma snapshots_Called (batch : list ExplanationRequest.t) :
  snapshots (map Called batch) = [].
Proof. induction batch; simpl; auto. Qed.

(** The length of a window. *)
Lemma slice_length {A : Type} (l : list A) (start stop : Z) :
  length (Js.slice l start stop) =
  Nat.min (Js.slice_count (Z.of_nat (length l)) start stop)
          (length l - Js.slice_from (Z.of_nat (length l)) start).
Proof. unfold Js.slice. rewrite length_take, length_drop. reflexivity. Qed.

(** A window moves the loop on. *)
Lemma progress_at_window {A : Type} (l : list A) (c i : Z) (k : nat) :
  (i < Z.of_nat (length l))%Z ->
  progress_at c (Z.of_nat (length l)) i k ->
  progress_at c (Z.of_nat (length l)) (i + c) (k + length (Js.slice l i (i + c))).
Proof.
  intros Hi Hp. rewrite slice_length.
  unfold progress_at, Js.slice_count, Js.slice_from, Js.clamp in *.
  destruct (Z.ltb_spec i 0), (Z.ltb_spec (i + c) 0); lia.
Qed.

Lemma progress_at_le (c n i : Z) (k : nat) :
  (0 <= n)%Z -> progress_at c n i k -> (Z.of_nat k <= n)%Z.
Proof. unfold progress_at. lia. Qed.

Section Calls.
Context `{Externals}.
Variables (this : MoveExplainerService) (net : network).

Lemma call_all_requests (batch : list ExplanationRequest.t) (sent : nat) :
  (call_all this net batch sent).1.*1 = batch.
Proof.
  revert sent; induction batch as [|r batch IH]; intros sent; simpl; [reflexivity|].
  destruct (explainMove this net r sent) as [o sent'].
  specialize (IH sent'). destruct (call_all this net batch sent') as [os sent''].
  simpl in *. f_equal. exact IH.
Qed.

Lemma call_all_length (batch : list ExplanationRequest.t) (sent : nat) :
  length (call_all this net batch sent).1 = length batch.
Proof.
  rewrite <- (call_all_requests batch sent) at 2. rewrite length_fmap. reflexivity.
Qed.

End Calls.

Section Window.
Context `{Externals}.
Variables (this : MoveExplainerService) (net : network) (order : scheduler).
Variables (requests : list ExplanationRequest.t) (onProgress : bool) (concurrency : Z).

Local Abbreviation n := (length requests) (only parsing).

(** Variables that only grow keep the snapshots passed so far. *)
Lemma trace_ok_grow (st st' : batch_state) :
  snapshots (log st') = snapshots (log st) ->
  grows (at_state n st) (at_state n st') ->
  trace_ok n st -> trace_ok n st'.
Proof.
  intros Hlog Hg [Hall Hchain]. unfold trace_ok. rewrite Hlog. split; [|exact Hchain].
  eapply Forall_impl; [exact Hall|].
  intros o [Ht Ho]. split; [exact Ht|]. eapply grows_trans; eassumption.
Qed.

Lemma report_trace_ok (st : batch_state) (result : failure + MoveExplanation.t) :
  trace_ok n st -> trace_ok n (report n onProgress st result).
Proof.
  intros [Hall Hchain].
  assert (Hg : grows (at_state n st) (at_state n (report n onProgress st result))).
  { unfold grows, at_state, report; simpl. split; [lia|]. split; [reflexivity|].
    destruct result; [reflexivity | apply prefix_app_r; reflexivity]. }
  destruct onProgress eqn:Hcb.
  2:{ apply (trace_ok_grow st); [|exact Hg|split; assumption].
      reflexivity. }
  unfold trace_ok, report. simpl. rewrite snapshots_app. simpl.
  set (results' := match result with inr e => results st ++ [e] | inl _ => results st end).
  set (snapshot := BatchExplanationProgress.Build _ _ _ _).
  assert (Hnew : forall o, o ∈ snapshots (log st) -> grows o (snapshot, results')).
  { intros o Ho. rewrite Forall_forall in Hall. destruct (Hall o Ho) as [_ Hgo].
    eapply grows_trans; [exact Hgo|]. exact Hg. }
  split.
  - apply Forall_app. split.
    + rewrite Forall_forall. intros o Ho. rewrite Forall_forall in Hall.
      split; [apply (Hall o Ho)|]. apply Hnew in Ho. exact Ho.
    + constructor; [|constructor]. split; [reflexivity|].
      unfold grows; simpl. split; [lia|]. split; reflexivity.
  - intros i j a b Hij Ha Hb.
    destruct (decide (j < length (snapshots (log st)))) as [Hj|Hj].
    + rewrite lookup_app_l in Ha by lia. rewrite lookup_app_l in Hb by lia.
      exact (Hchain i j a b Hij Ha Hb).
    + rewrite lookup_app_r in Hb by lia.
      destruct (j - length (snapshots (log st))) as [|?] eqn:Hd; [|discriminate].
      injection Hb as <-.
      destruct (decide (i < length (snapshots (log st)))) as [Hi|Hi].
      * rewrite lookup_app_l in Ha by lia. apply Hnew.
        eapply list_elem_of_lookup_2. exact Ha.
      * rewrite lookup_app_r in Ha by lia.
        destruct (i - length (snapshots (log st))) as [|?] eqn:Hd'; [|discriminate].
        injection Ha as <-. apply grows_refl.
Qed.

Lemma reports_trace_ok (outcomes : list (failure + MoveExplanation.t)) (st : batch_state) :
  trace_ok n st -> trace_ok n (foldl (report n onProgress) st outcomes).
Proof.
  intros Hst. apply (foldl_invariant (trace_ok n)); [exact Hst|].
  intros s a _. apply report_trace_ok.
Qed.

Lemma reports_completed (outcomes : list (failure + MoveExplanation.t)) (st : batch_state) :
  completed (foldl (report n onProgress) st outcomes) = completed st + length outcomes.
Proof.
  revert st; induction outcomes as [|o os IH]; intros st; simpl; [lia|].
  rewrite IH. simpl. lia.
Qed.

Lemma window_trace_ok (i : Z) (st : batch_state) :
  trace_ok n st -> trace_ok n (window this net order requests onProgress concurrency i st).
Proof.
  intros Hst. unfold window.
  destruct (call_all this net (Js.slice requests i (i + concurrency)) (sent st))
    as [outcomes sent'].
  set (st2 := BatchState (results st) (errors st ++ order i (failures outcomes))
                         (completed st) sent' _).
  assert (H2 : trace_ok n st2).
  { apply (trace_ok_grow st); [| |exact Hst].
    - unfold st2; cbn [log]. rewrite snapshots_app, snapshots_Called, app_nil_r.
      reflexivity.
    - unfold grows, at_state, st2; simpl. split; [lia|]. split; [|reflexivity].
      apply prefix_app_r. reflexivity. }
  pose proof (reports_trace_ok outcomes.*2 st2 H2) as H3.
  destruct (i + concurrency <? Z.of_nat (length requests))%Z; [|exact H3].
  apply (trace_ok_grow (foldl (report n onProgress) st2 outcomes.*2)); [| |exact H3].
  - cbn [log]. rewrite snapshots_app, app_nil_r. reflexivity.
  - apply grows_refl.
Qed.

Lemma window_completed (i : Z) (st : batch_state) :
  completed (window this net order requests onProgress concurrency i st) =
  completed st + length (Js.slice requests i (i + concurrency)).
Proof.
  unfold window.
  pose proof (call_all_length this net (Js.slice requests i (i + concurrency)) (sent st))
    as Hlen.
  destruct (call_all this net (Js.slice requests i (i + concurrency)) (sent st))
    as [outcomes sent'].
  simpl in Hlen.
  destruct (i + concurrency <? Z.of_nat (length requests))%Z; simpl;
    rewrite reports_completed, length_fmap, Hlen; reflexivity.
Qed.

(** The loop keeps the snapshots in order and never completes more
    items than there are requests, however long it runs. *)
Lemma batch_loop_trace_ok (fuel : nat) (i : Z) (st : batch_state) :
  trace_ok n st -> progress_at concurrency (Z.of_nat n) i (completed st) ->
  let st' := (batch_loop this net order requests onProgress concurrency fuel i st).1 in
  trace_ok n st' /\ completed st' <= n.
Proof.
  revert i st; induction fuel as [|fuel IH]; intros i st Hst Hp; simpl.
  - destruct (i <? Z.of_nat (length requests))%Z; simpl;
      (split; [exact Hst|]); apply progress_at_le in Hp; lia.
  - destruct (Z.ltb_spec i (Z.of_nat (length requests))) as [Hi|Hi]; simpl.
    + apply IH.
      * apply window_trace_ok. exact Hst.
      * rewrite window_completed. apply progress_at_window; assumption.
    + split; [exact Hst|]. apply progress_at_le in Hp; lia.
Qed.

(** C9: in a run of [batchExplainMoves], whatever the requests, the
    network, the order in which failures are caught, the concurrency
    and the length of the run, every snapshot passed to [onProgress]
    has the request count as its total and a completed count that does
    not exceed it; from a snapshot to any later one the completed
    count does not decrease, the error list only gains entries at its
    end, and so does the accumulated result list; and the error list
    and the results of the run at its end (the snapshots share the
    error list with the run) begin with those of every snapshot. *)
Theorem progress_snapshots_grow (sent0 fuel : nat) :
  let run := batchExplainMoves this net order sent0 requests onProgress
                               concurrency fuel in
  let passed := snapshots (log (final run)) in
  Forall (fun o => BatchExplanationProgress.total o.1 = length requests /\
                   BatchExplanationProgress.completed o.1
                   <= BatchExplanationProgress.total o.1) passed /\
  (forall i j a b,
     i <= j -> passed !! i = Some a -> passed !! j = Some b ->
     BatchExplanationProgress.completed a.1 <= BatchExplanationProgress.completed b.1 /\
     BatchExplanationProgress.errors a.1 `prefix_of` BatchExplanationProgress.errors b.1 /\
     a.2 `prefix_of` b.2) /\
  Forall (fun o => BatchExplanationProgress.errors o.1 `prefix_of` errors (final run) /\
                   o.2 `prefix_of` results (final run)) passed.
Proof.
  unfold batchExplainMoves.
  pose proof (batch_loop_trace_ok fuel 0 (BatchState [] [] 0 sent0 [])) as Hloop.
  destruct (batch_loop this net order requests onProgress concurrency fuel 0
                       (BatchState [] [] 0 sent0 [])) as [st finished].
  simpl in *.
  destruct Hloop as [[Hall Hchain] Hle].
  - split; [constructor|]. intros i j a b _ Ha. discriminate.
  - unfold progress_at; simpl. lia.
  - split; [|split].
    + eapply Forall_impl; [exact Hall|]. intros o [Ht (Hc & _ & _)].
      simpl in Hc. split; [exact Ht|]. rewrite Ht. lia.
    + exact Hchain.
    + eapply Forall_impl; [exact Hall|]. intros o [_ (_ & He & Hr)].
      split; assumption.
Qed.

End Window.

(** ** Whole games *)

Lemma slice_subseteq {A : Type} (l : list A) (start stop : Z) (x : A) :
  x ∈ Js.slice l start stop -> x ∈ l.
Proof.
  unfold Js.slice. intros Hx.
  apply (subseteq_drop (Js.slice_from (Z.of_nat (length l)) start) l).
  apply (subseteq_take (Js.slice_count (Z.of_nat (length l)) start stop) _).
  exact Hx.
Qed.

Section Numbers.
Context `{Externals}.
Variables (this : MoveExplainerService) (net : network).

Lemma parseResponse_moveNumber content request now result :
  parseResponse this content request now = inr result ->
  MoveExplanation.moveNumber result = ExplanationRequest.moveNumber request.
Proof.
  unfold parseResponse.
  destruct (parse_structured this content request now) as [e|r] eqn:Hp.
  - rewrite parse_fallback_inr. intros [= <-]. reflexivity.
  - intros [= <-]. unfold parse_structured in Hp.
    destruct (JSON_parse content) as [parsed|]; [|discriminate].
    destruct (Js.member (Some parsed) "explanation") as [|field];
      cbn [bind] in Hp; [discriminate|].
    destruct (Js.call_slice field 0 _) as [|explanation];
      cbn [bind] in Hp; [discriminate|].
    destruct (Js.member (Some parsed) "themes") as [|themes];
      cbn [bind] in Hp; [discriminate|].
    destruct (Js.member (Some parsed) "reason") as [|reason];
      cbn [bind] in Hp; [discriminate|].
    injection Hp as <-. reflexivity.
Qed.

Lemma explainMove_moveNumber request sent result :
  (explainMove this net request sent).1 = inr result ->
  MoveExplanation.moveNumber result = ExplanationRequest.moveNumber request.
Proof.
  unfold explainMove.
  destruct (buildPrompt this request); [discriminate|].
  destruct (net sent _) as [|response]; [discriminate|].
  destruct (negb (Response.ok response)); [discriminate|].
  destruct (Response.body response) as [|data]; [discriminate|].
  destruct (message_content data) as [|content]; [discriminate|].
  destruct (absent content); [discriminate|].
  destruct (parseResponse this _ request _) as [|r] eqn:Hp; [discriminate|].
  simpl. intros [= <-]. exact (parseResponse_moveNumber _ _ _ _ Hp).
Qed.

Lemma call_all_moveNumber batch sent :
  Forall (fun item => forall result, item.2 = inr result ->
            MoveExplanation.moveNumber result = ExplanationRequest.moveNumber item.1)
         (call_all this net batch sent).1.
Proof.
  revert sent; induction batch as [|r batch IH]; intros sent; simpl; [constructor|].
  pose proof (explainMove_moveNumber r sent) as Hr.
  destruct (explainMove this net r sent) as [o sent'].
  specialize (IH sent'). destruct (call_all this net batch sent') as [os sent''].
  simpl in *. constructor; [exact Hr | exact IH].
Qed.

End Numbers.

Section Results.
Context `{Externals}.
Variables (this : MoveExplainerService) (net : network) (order : scheduler).
Variables (requests : list ExplanationRequest.t) (onProgress : bool) (concurrency : Z).

Lemma reports_answers (batch : list ExplanationRequest.t)
    (outcomes : list (ExplanationRequest.t * (failure + MoveExplanation.t)))
    (st : batch_state) :
  Forall (fun item => item.1 ∈ requests /\
                      forall result, item.2 = inr result ->
                        MoveExplanation.moveNumber result
                        = ExplanationRequest.moveNumber item.1) outcomes ->
  answers requests (results st) ->
  answers requests (results (foldl (report (length requests) onProgress) st outcomes.*2)).
Proof.
  revert st; induction outcomes as [|[r o] os IH]; intros st Hos Hst; simpl;
    [exact Hst|].
  inversion Hos as [|? ? [Hr Ho] Hos']; subst. apply IH; [exact Hos'|].
  unfold report; simpl. destruct o as [f|e]; [exact Hst|].
  apply Forall_app. split; [exact Hst|]. constructor; [|constructor].
  exists r. split; [exact Hr|]. apply Ho. reflexivity.
Qed.

Lemma window_answers (i : Z) (st : batch_state) :
  answers requests (results st) ->
  answers requests
          (results (window this net order requests onProgress concurrency i st)).
Proof.
  intros Hst. unfold window.
  pose proof (call_all_moveNumber this net
                (Js.slice requests i (i + concurrency)) (sent st)) as Hnum.
  pose proof (call_all_requests this net
                (Js.slice requests i (i + concurrency)) (sent st)) as Hreq.
  destruct (call_all this net (Js.slice requests i (i + concurrency)) (sent st))
    as [outcomes sent'].
  simpl in Hnum, Hreq.
  assert (Hos : Forall (fun item => item.1 ∈ requests /\
                          forall result, item.2 = inr result ->
                            MoveExplanation.moveNumber result
                            = ExplanationRequest.moveNumber item.1) outcomes).
  { rewrite Forall_forall in Hnum |- *. intros item Hitem. split; [|auto].
    apply (slice_subseteq requests i (i + concurrency)). rewrite <- Hreq.
    apply list_elem_of_fmap. exists item. auto. }
  match goal with
  | |- context [foldl _ ?st2 _] =>
      pose proof (reports_answers (Js.slice requests i (i + concurrency))
                                  outcomes st2 Hos Hst) as H3
  end.
  destruct (i + concurrency <? Z.of_nat (length requests))%Z; exact H3.
Qed.

Lemma batch_loop_answers (fuel : nat) (i : Z) (st : batch_state) :
  answers requests (results st) ->
  answers requests
    (results (batch_loop this net order requests onProgress concurrency fuel i st).1).
Proof.
  revert i st; induction fuel as [|fuel IH]; intros i st Hst; simpl;
    destruct (i <? Z.of_nat (length requests))%Z; simpl; try exact Hst.
  apply IH. apply window_answers. exact Hst.
Qed.

(** With a positive step the loop is left once the index has passed
    the requests. *)
Lemma batch_loop_finishes (fuel : nat) (i : Z) (st : batch_state) :
  (0 < concurrency)%Z ->
  (Z.of_nat (length requests) - i <= Z.of_nat fuel * concurrency)%Z ->
  (batch_loop this net order requests onProgress concurrency fuel i st).2 = true.
Proof.
  intros Hc. revert i st; induction fuel as [|fuel IH]; intros i st Hi; simpl;
    destruct (Z.ltb_spec i (Z.of_nat (length requests))); simpl;
    try reflexivity; [lia|].
  apply IH. lia.
Qed.

End Results.

Lemma explanation_map_keys (explanations : list MoveExplanation.t) (k : nat) :
  is_Some (explanation_map explanations !! k) ->
  exists explanation,
    explanation ∈ explanations /\ MoveExplanation.moveNumber explanation = k.
Proof.
  unfold explanation_map.
  assert (Hgen : forall (m : gmap nat MoveExplanation.t),
    is_Some (foldl (fun m e => <[MoveExplanation.moveNumber e := e]> m) m explanations !! k) ->
    is_Some (m !! k) \/
    exists explanation,
      explanation ∈ explanations /\ MoveExplanation.moveNumber explanation = k).
  { induction explanations as [|e l IH]; intros m Hk; simpl in *; [left; exact Hk|].
    destruct (IH _ Hk) as [Hm|(x & Hx & Hn)].
    - destruct (decide (MoveExplanation.moveNumber e = k)) as [<-|Hne].
      + right. exists e. split; [left | reflexivity].
      + left. rewrite lookup_insert_ne in Hm by exact Hne. exact Hm.
    - right. exists x. split; [right; exact Hx | exact Hn]. }
  intros Hk. destruct (Hgen ∅ Hk) as [Hm|Hx]; [|exact Hx].
  rewrite lookup_empty in Hm. destruct Hm as [? [=]].
Qed.

Section Games.
Context `{Externals}.
Variable this : GameExplanationService.

(** The request builder emits requests for accepted moves only. *)
Lemma buildExplanationRequests_accepted (fens uciMoves : list string)
    (positions : list PositionEval.t) :
  Forall (fun request => accepted this positions (ExplanationRequest.moveNumber request))
         (buildExplanationRequests this fens uciMoves positions).
Proof.
  unfold buildExplanationRequests, for_range.
  apply (foldl_invariant
           (Forall (fun request =>
                      accepted this positions (ExplanationRequest.moveNumber request))));
    [constructor|].
  intros requests i Hi Hreq.
  apply elem_of_seq in Hi.
  destruct (positions !! i) as [position|] eqn:Hp; [|exact Hreq].
  destruct (positions !! (i - 1)) as [previousPosition|] eqn:Hq; [|exact Hreq].
  destruct (PositionEval.moveClassification position) as [classification|] eqn:Hc;
    [|exact Hreq].
  cbv zeta.
  destruct (shouldExplainMove _ _ _) eqn:Hs; [|exact Hreq].
  apply Forall_app. split; [exact Hreq|]. constructor; [|constructor]. simpl.
  exists position, previousPosition, classification.
  repeat split; try assumption. lia.
Qed.

(** C2: what [explainGame] returns is an aggregate, every key of which
    is an accepted move index; so the aggregate has no entry for a move
    index whose position lacks a classification or whose classification
    and evaluation change the policy rejects. ([explainGame] raises,
    and returns no aggregate, only when the PGN does not load or a move
    of its history is refused on the board reset to the initial
    position.) *)
Theorem explainGame_excludes (net : network) (order : scheduler) (sent0 : nat)
    (gameId : Z) (pgn : string) (gameEval : GameEval.t) (onProgress : bool) :
  match explainGame this net order sent0 gameId pgn gameEval onProgress with
  | inl _ =>
      chess_history pgn = None \/
      exists history, chess_history pgn = Some history /\ collect_fens history = None
  | inr run =>
      exists g,
        aggregate run = Some g /\
        (forall k, is_Some (GameExplanations.explanations g !! k) ->
                   accepted this (GameEval.positions gameEval) k) /\
        (forall k, excluded this (GameEval.positions gameEval) k ->
                   GameExplanations.explanations g !! k = None)
  end.
Proof.
  unfold explainGame.
  destruct (chess_history pgn) as [history|]; [|left; reflexivity].
  destruct (collect_fens history) as [fens|] eqn:Hfens; [|right; eauto].
  set (requests := buildExplanationRequests this _ _ _).
  unfold batchExplainMoves.
  pose proof (batch_loop_finishes (explainerService this) net order requests onProgress
                3 (S (length requests)) 0 (BatchState [] [] 0 sent0 [])
                ltac:(lia) ltac:(lia)) as Hfin.
  pose proof (batch_loop_answers (explainerService this) net order requests onProgress
                3 (S (length requests)) 0 (BatchState [] [] 0 sent0 [])
                ltac:(constructor)) as Hans.
  destruct (batch_loop _ _ _ _ _ _ _ _ _) as [st finished].
  simpl in Hfin, Hans. subst finished. cbn [final returned aggregate].
  eexists. split; [reflexivity|]. cbn [GameExplanations.explanations].
  assert (Hkeys : forall k, is_Some (explanation_map (results st) !! k) ->
                            accepted this (GameEval.positions gameEval) k).
  { intros k Hk. destruct (explanation_map_keys _ _ Hk) as (e & He & <-).
    unfold answers in Hans. rewrite Forall_forall in Hans.
    destruct (Hans e He) as (r & Hr & ->).
    pose proof (buildExplanationRequests_accepted
                  fens (collect_uciMoves history)
                  (GameEval.positions gameEval)) as Hacc.
    rewrite Forall_forall in Hacc. exact (Hacc r Hr). }
  split; [exact Hkeys|].
  intros k (position & Hp & Hex).
  destruct (explanation_map (results st) !! k) as [e|] eqn:Hk; [|reflexivity].
  exfalso.
  destruct (Hkeys k ltac:(rewrite Hk; eauto))
    as (position' & previous' & c' & _ & Hp' & Hq' & Hc' & Hs').
  assert (position' = position) as -> by congruence.
  destruct Hex as [Hnone|(c & previous & Hc & Hq & Hs)]; [congruence|].
  assert (previous' = previous) as -> by congruence.
  assert (c' = c) as -> by congruence.
  congruence.
Qed.

End Games.

(** On the sample game the aggregate has an entry for move 1 and none
    for the start position or for move 2, which the policy rejects. *)
Lemma explainGame_excludes_example :
  exists run g,
    explainGame (new_GameExplanationService "key") reply_network in_order 0
                7 "1. e4 e5" sample_game true = inr run /\
    aggregate run = Some g /\
    GameExplanations.explanations g !! 0 = None /\
    GameExplanations.explanations g !! 2 = None /\
    is_Some (GameExplanations.explanations g !! 1).
Proof.
  pose proof (explainGame_excludes (new_GameExplanationService "key") reply_network
                in_order 0 7 "1. e4 e5" sample_game true) as Hthm.
  destruct (explainGame _ _ _ _ _ _ _ _) as [e|run] eqn:Hrun.
  { vm_compute in Hrun. discriminate. }
  destruct Hthm as (g & Hg & _ & Hexc).
  exists run, g. split; [reflexivity|]. split; [exact Hg|].
  split; [|split].
  - apply Hexc. eexists. split; [reflexivity|]. left. reflexivity.
  - apply Hexc. eexists. split; [reflexivity|]. right.
    eexists _, _. split; [reflexivity|]. split; [reflexivity|].
    vm_compute. reflexivity.
  - vm_compute in Hrun. injection Hrun as <-.
    vm_compute in Hg. injection Hg as <-.
    vm_compute. eauto.
Defined.

(** ** Seven requests, three at a time *)

Section Unfolding.
Context `{Externals}.
Variables (this : MoveExplainerService) (net : network) (order : scheduler).
Variables (requests : list ExplanationRequest.t) (onProgress : bool) (concurrency : Z).






End Unfolding.



Section Seven.
Context `{Externals}.
Variables (this : MoveExplainerService) (net : network) (order : scheduler).
Variables (r1 r2 r3 r4 r5 r6 r7 : ExplanationRequest.t).


End Seven.


(** In that run the third snapshot is extended by the seventh, which
    completes no more than the total. *)
Lemma progress_snapshots_grow_example :
  let run := batchExplainMoves default_service fifth_fails in_order 0
                               seven_requests true 3 3 in
  exists a b,
    snapshots (log (final run)) !! 2 = Some a /\
    snapshots (log (final run)) !! 6 = Some b /\
    BatchExplanationProgress.completed a.1 <= BatchExplanationProgress.completed b.1 /\
    BatchExplanationProgress.errors a.1 `prefix_of` BatchExplanationProgress.errors b.1 /\
    a.2 `prefix_of` b.2 /\
    BatchExplanationProgress.completed b.1 <= BatchExplanationProgress.total b.1.
Proof.
  destruct (progress_snapshots_grow default_service fifth_fails in_order
              seven_requests true 3 0 3) as (Hall & Hchain & _).
  cbv zeta.
  destruct (snapshots _ !! 2) as [a|] eqn:Ha; [|vm_compute in Ha; discriminate].
  destruct (snapshots _ !! 6) as [b|] eqn:Hb; [|vm_compute in Hb; discriminate].
  exists a, b. split; [reflexivity|]. split; [reflexivity|].
  destruct (Hchain 2 6 a b ltac:(lia) Ha Hb) as (Hc & He & Hr).
  split; [exact Hc|]. split; [exact He|]. split; [exact Hr|].
  rewrite Forall_forall in Hall.
  apply (Hall b). eapply list_elem_of_lookup_2. exact Hb.
Defined.

(** * Further properties *)

(** ** Windows of a positive width *)

Lemma take_min_length {A : Type} (k : nat) (l : list A) :
  take (Nat.min k (length l)) l = take k l.
Proof.
  destruct (Nat.min_spec k (length l)) as [[_ ->]|[Hle ->]]; [reflexivity|].
  rewrite !take_ge by lia. reflexivity.
Qed.

(** From a non-negative index a window of positive width is the next
    [c] elements. *)
Lemma slice_window {A : Type} (l : list A) (k : nat) (c : Z) :
  (0 < c)%Z ->
  Js.slice l (Z.of_nat k) (Z.of_nat k + c) = take (Z.to_nat c) (drop k l).
Proof.
  intros Hc. unfold Js.slice, Js.slice_count, Js.slice_from, Js.clamp.
  destruct (Z.ltb_spec (Z.of_nat k) 0); [lia|].
  destruct (Z.ltb_spec (Z.of_nat k + c) 0); [lia|].
  destruct (decide (k < length l)) as [Hk|Hk].
  - replace (Z.to_nat (Z.min (Z.of_nat k) (Z.of_nat (length l)))) with k by lia.
    rewrite <- (take_min_length (Z.to_nat c) (drop k l)), length_drop.
    f_equal. lia.
  - rewrite (drop_ge l k) by lia. rewrite (drop_ge l) by lia.
    rewrite !take_nil. reflexivity.
Qed.

Lemma successes_app (a b : list (failure + MoveExplanation.t)) :
  successes (a ++ b) = successes a ++ successes b.
Proof. induction a as [|e a IH]; [reflexivity|]. destruct e; simpl; rewrite ?IH; reflexivity. Qed.

Lemma failures_app (a b : list (ExplanationRequest.t * (failure + MoveExplanation.t))) :
  failures (a ++ b) = failures a ++ failures b.
Proof. induction a as [|[r [f|e]] a IH]; simpl; rewrite ?IH; reflexivity. Qed.

(** Every outcome is a success or a failure. *)
Lemma successes_failures_length
    (outcomes : list (ExplanationRequest.t * (failure + MoveExplanation.t))) :
  length (successes outcomes.*2) + length (failures outcomes) = length outcomes.
Proof.
  induction outcomes as [|[r [f|e]] l IH]; [reflexivity|..];
    rewrite fmap_cons; cbn [successes failures length snd]; lia.
Qed.

Lemma calls_app (a b : list event) : calls (a ++ b) = calls a ++ calls b.
Proof. induction a as [|e a IH]; [reflexivity|]. destruct e; simpl; rewrite ?IH; reflexivity. Qed.

Lemma pauses_app (a b : list event) : pauses (a ++ b) = pauses a + pauses b.
Proof. induction a as [|e a IH]; [reflexivity|]. destruct e; simpl; rewrite ?IH; reflexivity. Qed.

Lemma calls_Called (batch : list ExplanationRequest.t) : calls (map Called batch) = batch.
Proof. induction batch; simpl; congruence. Qed.

Lemma pauses_Called (batch : list ExplanationRequest.t) : pauses (map Called batch) = 0.
Proof. induction batch; simpl; auto. Qed.

Section Splitting.
Context `{Externals}.
Variables (this : MoveExplainerService) (net : network).

(** Calling for a list is calling for its front and then for its rest. *)
Lemma call_all_app (a b : list ExplanationRequest.t) (sent : nat) :
  call_all this net (a ++ b) sent =
  ((call_all this net a sent).1 ++
   (call_all this net b (call_all this net a sent).2).1,
   (call_all this net b (call_all this net a sent).2).2).
Proof.
  revert sent; induction a as [|r a IH]; intros sent; simpl.
  - destruct (call_all this net b sent). reflexivity.
  - destruct (explainMove this net r sent) as [o s1]. rewrite IH.
    destruct (call_all this net a s1) as [oa s2]. simpl.
    destruct (call_all this net b s2) as [ob s3]. reflexivity.
Qed.

End Splitting.

Lemma pauses_step (m c : nat) :
  0 < c -> (m - 1) / c = (if c <? m then 1 else 0) + (m - c - 1) / c.
Proof.
  intros Hc. destruct (Nat.ltb_spec c m) as [Hlt|Hle].
  - replace (m - 1) with (1 * c + (m - c - 1)) by lia.
    rewrite Nat.div_add_l by lia. reflexivity.
  - rewrite Nat.div_small by lia. replace (m - c - 1) with 0 by lia.
    rewrite Nat.Div0.div_0_l. reflexivity.
Qed.

Section Runs.
Context `{Externals}.
Variables (this : MoveExplainerService) (net : network) (order : scheduler).
Variables (requests : list ExplanationRequest.t) (onProgress : bool).

(** One report, field by field. *)
Lemma report_fields (o : failure + MoveExplanation.t) (st : batch_state) :
  let st' := report (length requests) onProgress st o in
  results st' = results st ++ successes [o] /\
  errors st' = errors st /\
  completed st' = S (completed st) /\
  sent st' = sent st /\
  calls (log st') = calls (log st) /\
  pauses (log st') = pauses (log st) /\
  length (snapshots (log st')) =
    length (snapshots (log st)) + (if onProgress then 1 else 0).
Proof.
  cbv zeta. unfold report. cbn [results errors completed sent log].
  split; [destruct o; simpl; rewrite ?app_nil_r; reflexivity|].
  do 3 (split; [reflexivity|]).
  destruct onProgress; rewrite ?calls_app, ?pauses_app, ?snapshots_app, ?length_app;
    simpl; rewrite ?app_nil_r; repeat split; lia.
Qed.

(** The report loop, field by field. *)
Lemma reports_fields (outcomes : list (failure + MoveExplanation.t)) (st : batch_state) :
  let st' := foldl (report (length requests) onProgress) st outcomes in
  results st' = results st ++ successes outcomes /\
  errors st' = errors st /\
  completed st' = completed st + length outcomes /\
  sent st' = sent st /\
  calls (log st') = calls (log st) /\
  pauses (log st') = pauses (log st) /\
  length (snapshots (log st')) =
    length (snapshots (log st)) + (if onProgress then length outcomes else 0).
Proof.
  revert st; induction outcomes as [|o os IH]; intros st; cbn [foldl].
  - cbv zeta. rewrite app_nil_r. destruct onProgress; simpl; repeat split; lia.
  - specialize (IH (report (length requests) onProgress st o)). cbv zeta in *.
    destruct IH as (-> & -> & -> & -> & -> & -> & ->).
    destruct (report_fields o st) as (-> & -> & -> & -> & -> & -> & ->).
    change (o :: os) with ([o] ++ os). rewrite successes_app, app_assoc.
    destruct onProgress; simpl; repeat split; lia.
Qed.

Variable concurrency : Z.
Hypothesis positive : (0 < concurrency)%Z.

(** A window from a non-negative index, field by field. *)
Lemma window_fields (k : nat) (st : batch_state) :
  let batch := take (Z.to_nat concurrency) (drop k requests) in
  let called := call_all this net batch (sent st) in
  let st' := window this net order requests onProgress concurrency (Z.of_nat k) st in
  results st' = results st ++ successes called.1.*2 /\
  errors st' = errors st ++ order (Z.of_nat k) (failures called.1) /\
  completed st' = completed st + length batch /\
  sent st' = called.2 /\
  calls (log st') = calls (log st) ++ batch /\
  pauses (log st') =
    pauses (log st) + (if Z.to_nat concurrency <? length requests - k then 1 else 0) /\
  length (snapshots (log st')) =
    length (snapshots (log st)) + (if onProgress then length batch else 0).
Proof.
  cbv zeta. unfold window. rewrite slice_window by exact positive.
  set (batch := take (Z.to_nat concurrency) (drop k requests)).
  pose proof (call_all_length this net batch (sent st)) as Hlen.
  destruct (call_all this net batch (sent st)) as [outcomes sent'].
  cbn [fst snd] in *.
  match goal with
  | |- context [foldl _ ?st2 _] =>
      pose proof (reports_fields outcomes.*2 st2) as Hr
  end.
  cbv zeta in Hr. cbn [results errors completed sent log] in Hr.
  rewrite length_fmap, Hlen, calls_app, pauses_app, snapshots_app, length_app,
    calls_Called, pauses_Called, snapshots_Called in Hr.
  destruct Hr as (Hr1 & Hr2 & Hr3 & Hr4 & Hr5 & Hr6 & Hr7).
  destruct (Z.ltb_spec (Z.of_nat k + concurrency) (Z.of_nat (length requests)));
    destruct (Nat.ltb_spec (Z.to_nat concurrency) (length requests - k));
    try lia;
    cbn [results errors completed sent log];
    rewrite ?calls_app, ?pauses_app, ?snapshots_app, ?length_app;
    rewrite Hr1, Hr2, Hr3, Hr4, Hr5, Hr6, Hr7; simpl;
    rewrite ?app_nil_r; repeat split; lia.
Qed.

(** The whole loop from a non-negative index, field by field: with
    enough turns it is left, having called every remaining request in
    order, kept the successes in that order, counted every request,
    called back once per request if there is a callback, and paused
    between windows only. *)
Lemma batch_loop_fields (fuel k : nat) (st : batch_state) :
  (Z.of_nat (length requests - k) <= Z.of_nat fuel * concurrency)%Z ->
  let rest := drop k requests in
  let called := call_all this net rest (sent st) in
  let loop := batch_loop this net order requests onProgress concurrency fuel
                         (Z.of_nat k) st in
  loop.2 = true /\
  results loop.1 = results st ++ successes called.1.*2 /\
  ((forall i messages, order i messages ≡ₚ messages) ->
   errors loop.1 ≡ₚ errors st ++ failures called.1) /\
  completed loop.1 = completed st + length rest /\
  sent loop.1 = called.2 /\
  calls (log loop.1) = calls (log st) ++ rest /\
  pauses (log loop.1) = pauses (log st) + (length rest - 1) / Z.to_nat concurrency /\
  length (snapshots (log loop.1)) =
    length (snapshots (log st)) + (if onProgress then length rest else 0).
Proof.
  revert k st; induction fuel as [|fuel IH]; intros k st Hfuel; cbv zeta.
  - assert (Hk : length requests <= k) by lia.
    rewrite (drop_ge requests k Hk). simpl.
    destruct (Z.ltb_spec (Z.of_nat k) (Z.of_nat (length requests))); [lia|]. simpl.
    rewrite !app_nil_r, Nat.Div0.div_0_l.
    destruct onProgress; repeat split; try lia; reflexivity.
  - cbn [batch_loop].
    destruct (Z.ltb_spec (Z.of_nat k) (Z.of_nat (length requests))) as [Hk|Hk].
    + replace (Z.of_nat k + concurrency)%Z
        with (Z.of_nat (k + Z.to_nat concurrency)) by lia.
      specialize (IH (k + Z.to_nat concurrency)
                     (window this net order requests onProgress concurrency
                             (Z.of_nat k) st) ltac:(lia)).
      cbv zeta in IH.
      destruct (window_fields k st) as (W1 & W2 & W3 & W4 & W5 & W6 & W7).
      cbv zeta in W1, W2, W3, W4, W5, W6, W7.
      assert (Hsplit : drop k requests =
                       take (Z.to_nat concurrency) (drop k requests) ++
                       drop (k + Z.to_nat concurrency) requests).
      { rewrite <- drop_drop. symmetry. apply take_drop. }
      assert (Hb : length (take (Z.to_nat concurrency) (drop k requests)) =
                   Nat.min (Z.to_nat concurrency) (length requests - k)).
      { rewrite length_take, length_drop. reflexivity. }
      assert (Hr : length (drop (k + Z.to_nat concurrency) requests) =
                   length requests - k - Z.to_nat concurrency).
      { rewrite length_drop. lia. }
      set (batch := take (Z.to_nat concurrency) (drop k requests)) in *.
      set (rest' := drop (k + Z.to_nat concurrency) requests) in *.
      rewrite Hsplit, call_all_app. cbn [fst snd].
      rewrite W1, W2, W3, W4, W5, W6, W7 in IH.
      destruct IH as (I1 & I2 & I3 & I4 & I5 & I6 & I7 & I8).
      split; [exact I1|].
      split; [rewrite I2, fmap_app, successes_app, app_assoc; reflexivity|].
      split; [intros Hperm; rewrite (I3 Hperm), failures_app, (Hperm _ _), app_assoc;
              reflexivity|].
      split; [rewrite I4, length_app; lia|].
      split; [exact I5|].
      split; [rewrite I6, app_assoc; reflexivity|].
      split.
      * rewrite I7, length_app, Hb, Hr.
        replace (Z.to_nat concurrency `min` (length requests - k) +
                 (length requests - k - Z.to_nat concurrency) - 1)
          with (length requests - k - 1) by lia.
        rewrite (pauses_step (length requests - k) (Z.to_nat concurrency)) by lia.
        lia.
      * rewrite I8, length_app. destruct onProgress; lia.
    + assert (Hk' : length requests <= k) by lia.
      rewrite (drop_ge requests k Hk'). simpl.
      rewrite !app_nil_r, Nat.Div0.div_0_l.
      destruct onProgress; repeat split; try lia; reflexivity.
Qed.

End Runs.

(** ** Runs of the batch dispatcher *)

Section Dispatcher.
Context `{Externals}.
Variables (this : MoveExplainerService) (net : network) (order : scheduler).
Variables (requests : list ExplanationRequest.t) (onProgress : bool).
Variables (concurrency : Z) (sent0 fuel : nat).

Local Abbreviation run :=
  (batchExplainMoves this net order sent0 requests onProgress concurrency fuel)
  (only parsing).

(** X1: with a positive concurrency and at least as many turns as
    requests, [batchExplainMoves] returns, and what it returns is the
    explanations of the calls that succeeded, in the order of the
    requests: a failure leaves a gap and nothing is reordered, within a
    window or across windows. *)
Theorem batch_returns_in_order :
  (0 < concurrency)%Z -> length requests <= fuel ->
  returned run = Some (successes (outcomes_of this net requests sent0).*2).
Proof.
  intros Hc Hfuel. unfold batchExplainMoves, outcomes_of.
  destruct (batch_loop_fields this net order requests onProgress concurrency Hc
              fuel 0 (BatchState [] [] 0 sent0 [])) as (Hfin & Hres & _); [nia|].
  cbv zeta in Hfin, Hres. rewrite drop_0 in Hres. cbn [results sent] in Hres.
  destruct (batch_loop _ _ _ _ _ _ _ _ _) as [st finished].
  cbn [fst snd] in *. subst finished. cbn [returned]. rewrite Hres. reflexivity.
Qed.

(** X2: in such a run every request is accounted for once: the error
    list holds the messages of the calls that failed (in the order in
    which the failures of each window were caught), the results and
    the errors together are as many as the requests, [completed] ends
    at the request count, and the requests sent are those of the calls
    made in order. *)
Theorem batch_accounts_for_all :
  (0 < concurrency)%Z -> length requests <= fuel ->
  (forall i messages, order i messages ≡ₚ messages) ->
  errors (final run) ≡ₚ failures (outcomes_of this net requests sent0) /\
  length (results (final run)) + length (errors (final run)) = length requests /\
  completed (final run) = length requests /\
  sent (final run) = (call_all this net requests sent0).2.
Proof.
  intros Hc Hfuel Hperm. unfold batchExplainMoves, outcomes_of.
  destruct (batch_loop_fields this net order requests onProgress concurrency Hc
              fuel 0 (BatchState [] [] 0 sent0 []))
    as (_ & Hres & Herr & Hdone & Hsent & _); [nia|].
  cbv zeta in *. rewrite drop_0 in *. cbn [results errors completed sent] in *.
  specialize (Herr Hperm).
  destruct (batch_loop _ _ _ _ _ _ _ _ _) as [st finished].
  cbn [fst snd final] in *.
  split; [exact Herr|]. split; [|split; [lia | exact Hsent]].
  rewrite Hres, Herr. simpl.
  pose proof (call_all_length this net requests sent0) as Hlen.
  rewrite <- Hlen. apply successes_failures_length.
Qed.


End Dispatcher.

Section Stalls.
Context `{Externals}.
Variables (this : MoveExplainerService) (net : network) (order : scheduler).
Variables (requests : list ExplanationRequest.t) (onProgress : bool).

(** With a step that is not positive the index never passes a request. *)
Lemma batch_loop_stalls (concurrency : Z) (fuel : nat) (i : Z) (st : batch_state) :
  (concurrency <= 0)%Z -> (i <= 0)%Z -> requests <> [] ->
  (batch_loop this net order requests onProgress concurrency fuel i st).2 = false.
Proof.
  intros Hc. revert i st; induction fuel as [|fuel IH]; intros i st Hi Hne;
    assert (0 < length requests) by (destruct requests; [congruence | simpl; lia]);
    simpl; destruct (Z.ltb_spec i (Z.of_nat (length requests))); try lia;
    [reflexivity|].
  apply IH; [lia | exact Hne].
Qed.

(** A window of width zero at index zero only pauses. *)
Lemma window_zero (st : batch_state) :
  requests <> [] ->
  let st' := window this net order requests onProgress 0 0 st in
  results st' = results st /\ completed st' = completed st /\ sent st' = sent st /\
  log st' = log st ++ [Paused 100].
Proof.
  intros Hne. assert (0 < length requests) by (destruct requests; [congruence | simpl; lia]).
  cbv zeta. unfold window.
  assert (Hs : Js.slice requests 0 (0 + 0) = []).
  { unfold Js.slice, Js.slice_count, Js.clamp. simpl.
    replace (Z.to_nat _) with 0 by lia. reflexivity. }
  rewrite Hs. simpl. rewrite app_nil_r.
  destruct (Z.ltb_spec (0 + 0) (Z.of_nat (length requests))); [|lia].
  simpl. auto.
Qed.

Lemma batch_loop_zero (fuel : nat) (st : batch_state) :
  requests <> [] ->
  let st' := (batch_loop this net order requests onProgress 0 fuel 0 st).1 in
  results st' = results st /\ completed st' = completed st /\ sent st' = sent st /\
  log st' = log st ++ replicate fuel (Paused 100).
Proof.
  intros Hne. assert (0 < length requests) by (destruct requests; [congruence | simpl; lia]).
  revert st; induction fuel as [|fuel IH]; intros st; cbv zeta; simpl;
    destruct (Z.ltb_spec 0 (Z.of_nat (length requests))); try lia.
  - simpl. rewrite app_nil_r. auto.
  - change (0 + 0)%Z with 0%Z.
    destruct (window_zero st Hne) as (W1 & W2 & W3 & W4).
    destruct (IH (window this net order requests onProgress 0 0 st))
      as (I1 & I2 & I3 & I4).
    cbv zeta in *. rewrite I1, I2, I3, I4, W1, W2, W3, W4, <- app_assoc.
    auto.
Qed.

(** X4: with a concurrency that is not positive, [batchExplainMoves]
    returns (the empty list, having done nothing) exactly when there is
    no request; given a request it never returns, however long it
    runs. With a concurrency of zero a run over some requests calls
    nothing and completes nothing: it pauses, turn after turn. *)
Theorem batch_without_progress (concurrency : Z) (sent0 fuel : nat) :
  (concurrency <= 0)%Z ->
  let run := batchExplainMoves this net order sent0 requests onProgress
                               concurrency fuel in
  (requests = [] -> returned run = Some [] /\ log (final run) = [] /\
                    sent (final run) = sent0) /\
  (requests <> [] -> returned run = None) /\
  (requests <> [] -> concurrency = 0%Z ->
   log (final run) = replicate fuel (Paused 100) /\
   completed (final run) = 0 /\ sent (final run) = sent0).
Proof.
  intros Hc. cbv zeta. unfold batchExplainMoves. split; [|split].
  - intros ->. destruct fuel; simpl; auto.
  - intros Hne.
    pose proof (batch_loop_stalls concurrency fuel 0 (BatchState [] [] 0 sent0 [])
                  Hc ltac:(lia) Hne) as Hstall.
    destruct (batch_loop _ _ _ _ _ _ _ _ _) as [st finished].
    cbn [snd] in Hstall. subst finished. reflexivity.
  - intros Hne ->.
    destruct (batch_loop_zero fuel (BatchState [] [] 0 sent0 []) Hne)
      as (_ & Hdone & Hsent & Hlog).
    cbv zeta in *.
    destruct (batch_loop _ _ _ _ _ _ _ _ _) as [st finished].
    cbn [fst final] in *. auto.
Qed.

End Stalls.

Section Callback.
Context `{Externals}.
Variables (this : MoveExplainerService) (net : network) (order : scheduler).
Variables (requests : list ExplanationRequest.t) (concurrency : Z).

Lemma window_same_but_snapshots (i : Z) (a b : batch_state) :
  same_but_snapshots a b ->
  same_but_snapshots (window this net order requests true concurrency i a)
                     (window this net order requests false concurrency i b).
Proof.
  intros (E1 & E2 & E3 & E4 & E5 & E6 & E7). unfold window. rewrite <- E4.
  destruct (call_all this net (Js.slice requests i (i + concurrency)) (sent a))
    as [outcomes sent'].
  match goal with
  | |- same_but_snapshots (if _ then BatchState _ _ _ _ (log (foldl _ ?sa _) ++ _) else _)
                          (if _ then BatchState _ _ _ _ (log (foldl _ ?sb _) ++ _) else _) =>
      destruct (reports_fields requests true outcomes.*2 sa)
        as (A1 & A2 & A3 & A4 & A5 & A6 & _);
      destruct (reports_fields requests false outcomes.*2 sb)
        as (B1 & B2 & B3 & B4 & B5 & B6 & B7)
  end.
  cbv zeta in *. cbn [results errors completed sent log] in *.
  rewrite calls_app, calls_Called in A5, B5.
  rewrite pauses_app, pauses_Called in A6, B6.
  rewrite snapshots_app, snapshots_Called, E7 in B7. simpl in B7.
  apply nil_length_inv in B7.
  unfold same_but_snapshots.
  destruct (i + concurrency <? Z.of_nat (length requests))%Z;
    cbn [results errors completed sent log];
    rewrite ?calls_app, ?pauses_app, ?snapshots_app, A1, A2, A3, A4, A5, A6,
      B1, B2, B3, B4, B5, B6, B7, E1, E2, E3, E5, E6;
    repeat split; reflexivity.
Qed.

Lemma batch_loop_same_but_snapshots (fuel : nat) (i : Z) (a b : batch_state) :
  same_but_snapshots a b ->
  same_but_snapshots
    (batch_loop this net order requests true concurrency fuel i a).1
    (batch_loop this net order requests false concurrency fuel i b).1 /\
  (batch_loop this net order requests true concurrency fuel i a).2 =
  (batch_loop this net order requests false concurrency fuel i b).2.
Proof.
  revert i a b; induction fuel as [|fuel IH]; intros i a b Hab; simpl;
    destruct (i <? Z.of_nat (length requests))%Z; simpl; auto.
  apply IH. apply window_same_but_snapshots. exact Hab.
Qed.

(** X5: the callback changes nothing but the calls made to it: a run
    without a callback returns what the run with one returns, and ends
    with the same results, errors, completed count and requests sent,
    after the same calls and pauses; and it reports no snapshot. *)
Theorem batch_callback_is_an_observer (sent0 fuel : nat) :
  let watched := batchExplainMoves this net order sent0 requests true
                                   concurrency fuel in
  let silent := batchExplainMoves this net order sent0 requests false
                                  concurrency fuel in
  returned silent = returned watched /\
  results (final silent) = results (final watched) /\
  errors (final silent) = errors (final watched) /\
  completed (final silent) = completed (final watched) /\
  sent (final silent) = sent (final watched) /\
  calls (log (final silent)) = calls (log (final watched)) /\
  pauses (log (final silent)) = pauses (log (final watched)) /\
  snapshots (log (final silent)) = [].
Proof.
  cbv zeta. unfold batchExplainMoves.
  destruct (batch_loop_same_but_snapshots fuel 0 (BatchState [] [] 0 sent0 [])
              (BatchState [] [] 0 sent0 []))
    as [(E1 & E2 & E3 & E4 & E5 & E6 & E7) Efin].
  { repeat split. }
  destruct (batch_loop this net order requests true _ _ _ _) as [a fa].
  destruct (batch_loop this net order requests false _ _ _ _) as [b fb].
  cbn [fst snd final returned] in *. subst fb. rewrite E1.
  repeat split; auto.
Qed.

End Callback.

(** ** The remote call and the reply *)

Lemma str_take_all (n : nat) (s : string) :
  String.length s <= n -> Js.str_take n s = s.
Proof.
  revert n; induction s as [|c r IH]; intros [|n] Hn; simpl in *;
    try reflexivity; try lia.
  rewrite IH by lia. reflexivity.
Qed.

Section Replies.
Context `{Externals}.
Variables (this : MoveExplainerService) (net : network).
Variables (request : ExplanationRequest.t) (sent : nat).

(** X6: a request whose position has no scored line is never sent: the
    prompt builder raises, [explainMove] fails with what it raised, and
    the network is not called. For every other request [explainMove]
    sends one request, whatever happens next. *)
Theorem explainMove_needs_a_line :
  (PositionEval.lines (ExplanationRequest.positionEval request) = [] ->
   exists e, explainMove this net request sent = (inl (PromptFailed e), sent)) /\
  (PositionEval.lines (ExplanationRequest.positionEval request) <> [] ->
   (explainMove this net request sent).2 = S sent /\
   forall e, (explainMove this net request sent).1 <> inl (PromptFailed e)).
Proof.
  unfold explainMove, buildPrompt.
  destruct (PositionEval.lines (ExplanationRequest.positionEval request))
    as [|line rest]; simpl.
  - split; [eauto | congruence].
  - split; [congruence|]. intros _.
    destruct (net sent _) as [e|response]; simpl; [split; [reflexivity | congruence]|].
    destruct (Response.ok response); simpl; [|split; [reflexivity | congruence]].
    destruct (Response.body response) as [e|data]; simpl;
      [split; [reflexivity | congruence]|].
    destruct (message_content data) as [e|content]; simpl;
      [split; [reflexivity | congruence]|].
    destruct (absent content); simpl; [split; [reflexivity | congruence]|].
    destruct (parseResponse this _ request _) as [e|r] eqn:Hp; simpl;
      [|split; [reflexivity | congruence]].
    destruct (parseResponse_inr this (default "" content) request (clock (S sent)))
      as (r & Hr). congruence.
Qed.

(** X7: the text of a reply never fails a call. When the prompt can be
    built and the answer is an [ok] response whose body has [choices]
    and a first-choice message content that is a string with more than
    white space in it, [explainMove] returns an explanation: the one
    [parseResponse] makes of the trimmed content, for the move number
    and the move of the request. *)
Theorem explainMove_succeeds (prompt : string) (response : Response.t)
    (data choices : Js.json) (raw : string) :
  buildPrompt this request = inr prompt ->
  net sent (chat_request this prompt) = inr response ->
  Response.ok response = true ->
  Response.body response = inr data ->
  Js.member (Some data) "choices" = inr (Some choices) ->
  content_of choices = Some (Js.JString raw) ->
  Js.trim raw <> EmptyString ->
  exists explanation,
    explainMove this net request sent = (inr explanation, S sent) /\
    parseResponse this (Js.trim raw) request (clock (S sent)) = inr explanation /\
    MoveExplanation.moveNumber explanation = ExplanationRequest.moveNumber request /\
    MoveExplanation.uciMove explanation = ExplanationRequest.uciMove request.
Proof.
  intros Hprompt Hnet Hok Hbody Hchoices Hcontent Hraw.
  assert (Hm : message_content data = inr (Some (Js.trim raw))).
  { unfold message_content. rewrite Hchoices. cbn [bind].
    unfold content_of, choice0 in Hcontent.
    destruct (Js.first (Some choices)) as [e|choice]; cbn [bind].
    - simpl in Hcontent. discriminate.
    - rewrite Hcontent. reflexivity. }
  unfold explainMove. rewrite Hprompt, Hnet, Hok, Hbody, Hm. cbn [negb absent].
  rewrite bool_decide_eq_false_2 by exact Hraw.
  change (default "" (Some (Js.trim raw))) with (Js.trim raw).
  destruct (parseResponse_inr this (Js.trim raw) request (clock (S sent))) as (r & Hr).
  rewrite Hr. exists r. split; [reflexivity|]. split; [reflexivity|].
  split; [exact (parseResponse_moveNumber this _ _ _ _ Hr)|].
  unfold parseResponse in Hr.
  destruct (parse_structured this (Js.trim raw) request (clock (S sent)))
    as [e|r'] eqn:Hp.
  - rewrite parse_fallback_inr in Hr. injection Hr as <-. reflexivity.
  - injection Hr as <-. unfold parse_structured in Hp.
    destruct (JSON_parse (Js.trim raw)) as [parsed|]; [|discriminate].
    destruct (Js.member (Some parsed) "explanation") as [|field];
      cbn [bind] in Hp; [discriminate|].
    destruct (Js.call_slice field 0 _) as [|explanation];
      cbn [bind] in Hp; [discriminate|].
    destruct (Js.member (Some parsed) "themes") as [|themes];
      cbn [bind] in Hp; [discriminate|].
    destruct (Js.member (Some parsed) "reason") as [|reason];
      cbn [bind] in Hp; [discriminate|].
    injection Hp as <-. reflexivity.
Qed.

(** X8: a reply that parses to an object whose [explanation] is a
    string is taken apart, not echoed: the explanation is the first
    [maxLength] characters of that string (the whole string when it is
    no longer than that), the themes are the [themes] of the reply, or
    the empty array when they are absent or falsy, and the rationale is
    the [reason] of the reply, or the empty string; the rationale is
    not the synthesized one of the fallback. *)
Theorem parseResponse_structured (content now text : string)
    (fields : list (string * Js.json)) :
  (0 <= ExplanationSettings.maxLength (settings this))%Z ->
  JSON_parse content = Some (Js.JObject fields) ->
  Js.assoc "explanation" fields = Some (Js.JString text) ->
  exists result,
    parseResponse this content request now = inr result /\
    MoveExplanation.explanation result =
      Js.JString (Js.str_take (Z.to_nat (ExplanationSettings.maxLength (settings this)))
                              text) /\
    (Z.of_nat (String.length text) <= ExplanationSettings.maxLength (settings this) ->
     MoveExplanation.explanation result = Js.JString text)%Z /\
    MoveExplanation.themes result =
      Js.or_else (Js.assoc "themes" fields) (Js.JArray []) /\
    MoveExplanation.classificationReason result =
      Js.or_else (Js.assoc "reason" fields) (Js.JString "") /\
    (Js.assoc "themes" fields = None -> MoveExplanation.themes result = Js.JArray []) /\
    (Js.assoc "reason" fields = None ->
     MoveExplanation.classificationReason result = Js.JString "").
Proof.
  intros Hlimit Hparse Hfield.
  unfold parseResponse, parse_structured. rewrite Hparse. cbn [Js.member bind].
  rewrite Hfield. cbn [Js.call_slice bind].
  eexists. split; [reflexivity|]. cbn.
  rewrite str_slice_prefix by exact Hlimit.
  split; [reflexivity|]. split.
  - intros Hshort. rewrite str_take_all by lia. reflexivity.
  - split; [reflexivity|]. split; [reflexivity|].
    split; intros ->; reflexivity.
Qed.

End Replies.

(** ** The requests of a game *)

(** A [foldl] that pushes at most one element a turn is a filtered map. *)
Lemma foldl_push_omap {A B : Type} (step : list B -> A -> list B) (f : A -> option B)
    (l : list A) (init : list B) :
  (forall acc a, step acc a = match f a with Some b => acc ++ [b] | None => acc end) ->
  foldl step init l = init ++ omap f l.
Proof.
  intros Hstep. revert init; induction l as [|a l IH]; intros init; simpl.
  - rewrite app_nil_r. reflexivity.
  - rewrite IH, Hstep. destruct (f a); simpl; rewrite <- ?app_assoc; reflexivity.
Qed.

(** A loop over a range keeps an invariant of the index. *)
Lemma for_range_invariant {S : Type} (P : nat -> S -> Prop) (from to : nat)
    (body : nat -> S -> S) (init : S) :
  from <= to -> P from init ->
  (forall i s, from <= i < to -> P i s -> P (Datatypes.S i) (body i s)) ->
  P to (for_range from to body init).
Proof.
  intros Hle H0 Hstep. unfold for_range.
  replace to with (from + (to - from)) at 1 by lia.
  assert (Hgen : forall len a s, a + len <= to -> from <= a -> P a s ->
            P (a + len) (foldl (fun state i => body i state) s (seq a len))).
  { induction len as [|len IH]; intros a s Ha Hfa Hs; simpl.
    - rewrite Nat.add_0_r. exact Hs.
    - replace (a + Datatypes.S len) with (Datatypes.S a + len) by lia.
      apply IH; [lia | lia |]. apply Hstep; [lia | exact Hs]. }
  apply Hgen; [lia | lia | exact H0].
Qed.

Lemma StronglySorted_filter_keeps {A : Type} (R : A -> A -> Prop) (P : A -> Prop)
    `{forall x, Decision (P x)} (l : list A) :
  StronglySorted R l -> StronglySorted R (filter P l).
Proof.
  induction l as [|x l IH]; [intros _; constructor|].
  rewrite StronglySorted_cons, filter_cons. intros [Hx Hl].
  destruct (decide (P x)); [|auto].
  apply StronglySorted_cons. split; [|auto].
  rewrite Forall_forall in Hx |- *. intros y Hy.
  apply list_elem_of_filter in Hy as [_ Hy]. auto.
Qed.

Lemma classification_name_inj (a b : MoveClassification) :
  classification_name a = classification_name b -> a = b.
Proof. destruct a, b; simpl; intros Heq; try reflexivity; discriminate. Qed.

Section Builder.
Context `{Externals}.
Variable this : GameExplanationService.
Variables (fens uciMoves : list string) (positions : list PositionEval.t).

(** The builder is [request_at] mapped over the move indices. *)
Lemma buildExplanationRequests_omap :
  buildExplanationRequests this fens uciMoves positions =
  omap (request_at this fens uciMoves positions) (seq 1 (length positions - 1)).
Proof.
  unfold buildExplanationRequests, for_range.
  rewrite (foldl_push_omap _ (request_at this fens uciMoves positions)); [reflexivity|].
  intros acc i. unfold request_at, winChange.
  destruct (positions !! i) as [position|]; [|reflexivity].
  destruct (positions !! (i - 1)) as [previousPosition|]; [|reflexivity].
  destruct (PositionEval.moveClassification position) as [classification|];
    [|reflexivity].
  cbv zeta. destruct (shouldExplainMove _ _ _); reflexivity.
Qed.

Lemma request_at_moveNumber (i : nat) (r : ExplanationRequest.t) :
  request_at this fens uciMoves positions i = Some r ->
  ExplanationRequest.moveNumber r = i.
Proof.
  unfold request_at.
  destruct (positions !! i); [|discriminate].
  destruct (positions !! (i - 1)); [|discriminate].
  destruct (PositionEval.moveClassification _); [|discriminate].
  destruct (shouldExplainMove _ _ _); [|discriminate].
  intros [= <-]. reflexivity.
Qed.

Lemma request_at_accepted (i : nat) :
  1 <= i -> (is_Some (request_at this fens uciMoves positions i)
             <-> accepted this positions i).
Proof.
  intros Hi. unfold request_at, accepted. split.
  - intros [r Hr].
    destruct (positions !! i) as [p|] eqn:Hp; [|discriminate].
    destruct (positions !! (i - 1)) as [q|] eqn:Hq; [|discriminate].
    destruct (PositionEval.moveClassification p) as [c|] eqn:Hc; [|discriminate].
    destruct (shouldExplainMove _ c _) eqn:Hs; [|discriminate].
    exists p, q, c. auto.
  - intros (p & q & c & _ & -> & -> & -> & ->). eauto.
Qed.

(** The move numbers of a filtered map of [request_at] over increasing
    indices are those indices, filtered. *)
Lemma request_numbers (indices : list nat) :
  ExplanationRequest.moveNumber <$>
    omap (request_at this fens uciMoves positions) indices =
  filter (fun i => is_Some (request_at this fens uciMoves positions i)) indices.
Proof.
  induction indices as [|i l IH]; [reflexivity|].
  rewrite filter_cons. cbn [omap list_omap].
  destruct (request_at this fens uciMoves positions i) as [r|] eqn:Hr.
  - rewrite decide_True by eauto. rewrite fmap_cons, IH.
    rewrite (request_at_moveNumber i r Hr). reflexivity.
  - rewrite decide_False by (intros [? [=]]). exact IH.
Qed.

(** X9: the builder emits one request for every accepted move and none
    for any other, in increasing order of move number; so no two
    requests have the same move number, and every move number lies
    between 1 and the number of moves of the trace. *)
Theorem buildExplanationRequests_numbers :
  let numbers := ExplanationRequest.moveNumber <$>
                   buildExplanationRequests this fens uciMoves positions in
  StronglySorted lt numbers /\
  NoDup numbers /\
  forall k, k ∈ numbers <-> accepted this positions k.
Proof.
  cbv zeta. rewrite buildExplanationRequests_omap, request_numbers.
  assert (Hsorted : StronglySorted lt (seq 1 (length positions - 1))).
  { generalize (length positions - 1) as len. generalize 1 as a.
    intros a len; revert a. induction len as [|len IH]; intros a; simpl.
    - constructor.
    - constructor; [apply IH|]. rewrite Forall_forall. intros x Hx.
      apply elem_of_seq in Hx. lia. }
  split; [|split].
  - apply StronglySorted_filter_keeps. exact Hsorted.
  - apply NoDup_filter, NoDup_seq.
  - intros k. rewrite list_elem_of_filter, elem_of_seq. split.
    + intros [Hk Hrange]. apply request_at_accepted; [lia | exact Hk].
    + intros Hk. split; [apply request_at_accepted; [|exact Hk]|].
      * destruct Hk as (? & ? & ? & ? & _). assumption.
      * destruct Hk as (p & ? & ? & ? & Hp & _).
        apply lookup_lt_Some in Hp. lia.
Qed.

(** X10: every request describes its own move: for a request numbered
    [i], the position evaluated is the [i]-th of the trace and the
    previous one the one before it, the classification and the opening
    are those of the position, the win percentages are those of the two
    positions, the position text and the move are the entries [i - 1]
    of the lists given (absent when the lists are too short), and the
    move is White's exactly when [i] is odd. *)
Theorem buildExplanationRequests_fields :
  Forall (fun r =>
            let i := ExplanationRequest.moveNumber r in
            positions !! i = Some (ExplanationRequest.positionEval r) /\
            (exists previous,
               positions !! (i - 1) = Some previous /\
               ExplanationRequest.previousPositionEval r = Some previous /\
               ExplanationRequest.previousWinPercentage r
                 = getPositionWinPercentage previous) /\
            PositionEval.moveClassification (ExplanationRequest.positionEval r)
              = Some (ExplanationRequest.classification r) /\
            ExplanationRequest.opening r
              = PositionEval.opening (ExplanationRequest.positionEval r) /\
            ExplanationRequest.currentWinPercentage r
              = getPositionWinPercentage (ExplanationRequest.positionEval r) /\
            ExplanationRequest.fen r = fens !! (i - 1) /\
            ExplanationRequest.uciMove r = uciMoves !! (i - 1) /\
            ExplanationRequest.isWhiteMove r = Nat.odd i)
         (buildExplanationRequests this fens uciMoves positions).
Proof.
  rewrite buildExplanationRequests_omap. rewrite Forall_forall. intros r Hr.
  apply list_elem_of_omap in Hr as (i & _ & Hr). unfold request_at in Hr.
  destruct (positions !! i) as [p|] eqn:Hp; [|discriminate].
  destruct (positions !! (i - 1)) as [q|] eqn:Hq; [|discriminate].
  destruct (PositionEval.moveClassification p) as [c|] eqn:Hc; [|discriminate].
  destruct (shouldExplainMove _ c _); [|discriminate].
  injection Hr as <-. cbv zeta. cbn.
  split; [exact Hp|]. split; [eauto|]. split; [exact Hc|].
  do 4 (split; [reflexivity|]).
  change (1 - (Nat.divmod i 1 0 1).2) with (i mod 2).
  destruct (Nat.odd i) eqn:Hodd.
  - apply Nat.odd_spec in Hodd as [m ->].
    apply bool_decide_eq_true_2.
    rewrite Nat.add_comm, Nat.mul_comm, Nat.Div0.mod_add. reflexivity.
  - apply bool_decide_eq_false_2.
    rewrite <- Nat.negb_even in Hodd. apply negb_false_iff in Hodd.
    apply Nat.even_spec in Hodd as [m ->].
    rewrite Nat.mul_comm, Nat.Div0.mod_mul. discriminate.
Qed.

End Builder.

(** ** The statistics of a game *)

Section Statistics.
Context `{Externals}.
Variable this : GameExplanationService.

(** What the table of the statistics holds for a classification after
    the positions [l] have been counted. *)
Local Abbreviation tally_of classification l :=
  (length (filter (fun position : PositionEval.t =>
                     PositionEval.moveClassification position = Some classification) l))
  (only parsing).

Lemma getExplanationStats_invariant (gameEval : GameEval.t) :
  let positions := GameEval.positions gameEval in
  let stats := getExplanationStats this gameEval in
  ExplanationStats.totalMoves stats = (Z.of_nat (length positions) - 1)%Z /\
  (forall classification,
     ExplanationStats.byClassification stats !! classification_name classification =
     match tally_of classification (drop 1 positions) with
     | 0 => None
     | n => Some n
     end) /\
  (forall key, is_Some (ExplanationStats.byClassification stats !! key) ->
               exists classification, key = classification_name classification).
Proof.
  intros positions stats. subst stats. unfold getExplanationStats. fold positions.
  destruct (decide (length positions = 0)) as [Hz|Hnz].
  { unfold for_range. rewrite Hz. simpl.
    destruct positions; [|discriminate]. simpl.
    split; [reflexivity|]. split; [intros c; apply lookup_empty|].
    intros key [? Hk]. rewrite lookup_empty in Hk. discriminate. }
  set (P := fun (i : nat) (stats : ExplanationStats.t) =>
              ExplanationStats.totalMoves stats
                = (Z.of_nat (length positions) - 1)%Z /\
              (forall classification,
                 ExplanationStats.byClassification stats
                   !! classification_name classification =
                 match tally_of classification
                                (take (i - 1) (drop 1 positions)) with
                 | 0 => None
                 | n => Some n
                 end) /\
              (forall key,
                 is_Some (ExplanationStats.byClassification stats !! key) ->
                 exists classification, key = classification_name classification)).
  match goal with
  | |- context [for_range 1 _ ?body ?init] =>
      assert (Hinv : P (length positions) (for_range 1 (length positions) body init))
  end.
  { apply for_range_invariant; unfold P.
    - lia.
    - simpl. split; [reflexivity|]. split; [intros c; apply lookup_empty|].
      intros key [? Hk]. rewrite lookup_empty in Hk. discriminate.
    - intros i s [Hi1 Hi2] (Htotal & Htable & Hkeys).
      destruct (lookup_lt_is_Some_2 positions i Hi2) as [p Hp].
      destruct (lookup_lt_is_Some_2 positions (i - 1) ltac:(lia)) as [q Hq].
      rewrite Hp, Hq.
      assert (Htake : take (S i - 1) (drop 1 positions)
                      = take (i - 1) (drop 1 positions) ++ [p]).
      { replace (S i - 1) with (S (i - 1)) by lia.
        apply take_S_r. rewrite lookup_drop.
        replace (1 + (i - 1)) with i by lia. exact Hp. }
      rewrite Htake.
      destruct (PositionEval.moveClassification p) as [c|] eqn:Hc.
      + cbv zeta. cbn [ExplanationStats.totalMoves ExplanationStats.byClassification].
        split; [exact Htotal|]. split.
        * intros c'. rewrite filter_app, length_app, filter_cons, filter_nil.
          destruct (decide (c' = c)) as [->|Hne].
          -- rewrite lookup_insert_eq. rewrite Htable.
             rewrite decide_True by exact Hc. simpl.
             destruct (length (filter _ _)) as [|n]; [reflexivity|]. simpl.
             rewrite Nat.add_1_r. reflexivity.
          -- rewrite lookup_insert_ne
               by (intros Heq; apply classification_name_inj in Heq; congruence).
             rewrite Htable. rewrite decide_False by congruence.
             simpl. rewrite Nat.add_0_r. reflexivity.
        * intros key Hkey.
          destruct (decide (classification_name c = key)) as [<-|Hne]; [eauto|].
          rewrite lookup_insert_ne in Hkey by exact Hne. auto.
      + split; [exact Htotal|]. split; [|exact Hkeys].
        intros c'. rewrite filter_app, length_app, filter_cons, filter_nil.
        rewrite decide_False by congruence. simpl. rewrite Nat.add_0_r. apply Htable. }
  unfold P in Hinv. destruct Hinv as (Htotal & Htable & Hkeys).
  split; [exact Htotal|]. split; [|exact Hkeys].
  intros c. rewrite Htable. rewrite take_ge; [reflexivity|].
  rewrite length_drop. lia.
Qed.

(** X11: the statistics of a game count the moves of the trace: the
    total is the number of positions less one (so -1 for an empty
    trace), and the table holds, for each classification, the number of
    positions after the first that carry it; a classification that no
    such position carries has no entry, and the table has no other
    keys. *)
Theorem getExplanationStats_tally (gameEval : GameEval.t) :
  let positions := GameEval.positions gameEval in
  let stats := getExplanationStats this gameEval in
  ExplanationStats.totalMoves stats = (Z.of_nat (length positions) - 1)%Z /\
  (forall classification,
     default 0 (ExplanationStats.byClassification stats
                  !! classification_name classification)
     = length (classified classification positions)) /\
  (forall key,
     is_Some (ExplanationStats.byClassification stats !! key) <->
     exists classification,
       key = classification_name classification /\
       classified classification positions <> []).
Proof.
  intros positions stats.
  destruct (getExplanationStats_invariant gameEval) as (Htotal & Htable & Hkeys).
  fold positions stats in Htotal, Htable, Hkeys.
  split; [exact Htotal|]. split.
  - intros c. rewrite Htable. unfold classified.
    destruct (length (filter _ _)); reflexivity.
  - intros key. split.
    + intros Hkey. destruct (Hkeys key Hkey) as [c ->]. exists c.
      split; [reflexivity|]. rewrite Htable in Hkey. unfold classified.
      intros Hnil. rewrite Hnil in Hkey. destruct Hkey as [? [=]].
    + intros (c & -> & Hne). rewrite Htable. unfold classified in Hne.
      destruct (filter _ _); [congruence|]. simpl. eauto.
Qed.

End Statistics.

(** ** The aggregate of a game *)

Lemma explanation_map_snoc (l : list MoveExplanation.t) (e : MoveExplanation.t) :
  explanation_map (l ++ [e]) = <[MoveExplanation.moveNumber e := e]> (explanation_map l).
Proof. unfold explanation_map. rewrite foldl_app. reflexivity. Qed.

(** When no two explanations share a move number, the map holds each
    explanation under its number and nothing else. *)
Lemma explanation_map_lookup (l : list MoveExplanation.t) (k : nat)
    (e : MoveExplanation.t) :
  NoDup (MoveExplanation.moveNumber <$> l) ->
  explanation_map l !! k = Some e <-> e ∈ l /\ MoveExplanation.moveNumber e = k.
Proof.
  induction l as [|x l IH] using rev_ind; intros Hnd.
  - unfold explanation_map. simpl. rewrite lookup_empty. split; [discriminate|].
    intros [Hin _]. inversion Hin.
  - rewrite fmap_app in Hnd. apply NoDup_app in Hnd as (Hl & Hx & _).
    rewrite explanation_map_snoc. rewrite elem_of_app, list_elem_of_singleton.
    destruct (decide (MoveExplanation.moveNumber x = k)) as [Hk|Hk].
    + subst k. rewrite lookup_insert_eq. split.
      * intros [= <-]. auto.
      * intros [[Hin | ->] Hn]; [|reflexivity]. exfalso.
        apply (Hx (MoveExplanation.moveNumber x)); [|simpl; left].
        rewrite <- Hn. apply list_elem_of_fmap_2. exact Hin.
    + rewrite lookup_insert_ne by exact Hk. rewrite (IH Hl). split.
      * intros [Hin Hn]. auto.
      * intros [[Hin| ->] Hn]; [auto | contradiction].
Qed.

Lemma explanation_map_size (l : list MoveExplanation.t) :
  NoDup (MoveExplanation.moveNumber <$> l) -> size (explanation_map l) = length l.
Proof.
  induction l as [|x l IH] using rev_ind; intros Hnd.
  - reflexivity.
  - rewrite fmap_app in Hnd. apply NoDup_app in Hnd as (Hl & Hx & _).
    rewrite explanation_map_snoc, length_app. simpl.
    rewrite map_size_insert_None; [rewrite (IH Hl); lia|].
    destruct (explanation_map l !! MoveExplanation.moveNumber x) as [y|] eqn:Hy;
      [|reflexivity].
    exfalso. apply (explanation_map_lookup l _ y Hl) in Hy as [Hin Hn].
    apply (Hx (MoveExplanation.moveNumber x)); [|simpl; left].
    rewrite <- Hn. apply list_elem_of_fmap_2. exact Hin.
Qed.

(** The successes among outcomes are the explanations paired with a
    request. *)
Lemma elem_of_successes
    (outcomes : list (ExplanationRequest.t * (failure + MoveExplanation.t)))
    (e : MoveExplanation.t) :
  e ∈ successes outcomes.*2 <-> exists r, (r, inr e) ∈ outcomes.
Proof.
  induction outcomes as [|[r [f|x]] l IH].
  - simpl. split; [intros Hin; inversion Hin | intros [r Hin]; inversion Hin].
  - rewrite fmap_cons. cbn [successes snd]. rewrite IH. split.
    + intros [r' Hin]. exists r'. right. exact Hin.
    + intros [r' Hin]. apply elem_of_cons in Hin as [[=]|Hin]. eauto.
  - rewrite fmap_cons. cbn [successes snd]. rewrite elem_of_cons, IH. split.
    + intros [-> | [r' Hin]]; [exists r; left | exists r'; right; exact Hin].
    + intros [r' Hin]. apply elem_of_cons in Hin as [[= -> ->]|Hin]; eauto.
Qed.

(** The move numbers of the successes are among those of the requests,
    in order. *)
Lemma successes_numbers
    (outcomes : list (ExplanationRequest.t * (failure + MoveExplanation.t))) :
  Forall (fun item => forall result, item.2 = inr result ->
            MoveExplanation.moveNumber result = ExplanationRequest.moveNumber item.1)
         outcomes ->
  sublist (MoveExplanation.moveNumber <$> successes outcomes.*2)
          (ExplanationRequest.moveNumber <$> outcomes.*1).
Proof.
  induction 1 as [|[r [f|x]] l Hx Hl IH]; [constructor| |].
  - rewrite !fmap_cons. cbn [successes snd fst]. apply sublist_cons. exact IH.
  - rewrite !fmap_cons. cbn [successes snd fst]. rewrite fmap_cons.
    rewrite (Hx x eq_refl). apply sublist_skip. exact IH.
Qed.

(** The replay pushes one position for each move, each the result of
    playing the move in the position before it. *)
Lemma replay_length `{Externals} (position : string) (history : list VerboseMove.t)
    (fens : list string) :
  replay position history = Some fens -> length fens = length history.
Proof.
  revert position fens; induction history as [|move rest IH]; intros position fens.
  - intros [= <-]. reflexivity.
  - simpl. destruct (chess_move position move) as [next|]; [|discriminate].
    destruct (replay next rest) as [l|] eqn:Hl; [|discriminate].
    intros [= <-]. simpl. rewrite (IH next l Hl). reflexivity.
Qed.

Lemma replay_step `{Externals} (position : string) (history : list VerboseMove.t)
    (fens : list string) (j : nat) (before : string) (move : VerboseMove.t) :
  replay position history = Some fens ->
  (position :: fens) !! j = Some before -> history !! j = Some move ->
  (position :: fens) !! S j = chess_move before move.
Proof.
  revert position fens j; induction history as [|first rest IH];
    intros position fens j; [intros _ _ [=]|].
  simpl. destruct (chess_move position first) as [next|] eqn:Hnext; [|discriminate].
  destruct (replay next rest) as [l|] eqn:Hl; [|discriminate].
  intros [= <-]. destruct j as [|j].
  - intros [= <-] [= <-]. simpl. rewrite Hnext. reflexivity.
  - intros Hbefore Hmove. exact (IH next l j Hl Hbefore Hmove).
Qed.

Lemma collect_fens_length `{Externals} (history : list VerboseMove.t)
    (fens : list string) :
  collect_fens history = Some fens -> length fens = S (length history).
Proof.
  unfold collect_fens. destruct (replay chess_start history) as [l|] eqn:Hl;
    [|discriminate].
  intros [= <-]. simpl. rewrite (replay_length _ _ _ Hl). reflexivity.
Qed.

Lemma collect_uciMoves_lookup (history : list VerboseMove.t) (j : nat) :
  collect_uciMoves history !! j = uci_of <$> history !! j.
Proof.
  unfold collect_uciMoves. change (map ?f ?l) with (f <$> l).
  rewrite list_lookup_fmap. reflexivity.
Qed.

Section Aggregates.
Context `{Externals}.
Variables (this : GameExplanationService) (net : network) (order : scheduler).
Variables (sent0 : nat) (gameId : Z) (pgn : string) (gameEval : GameEval.t).
Variables (onProgress : bool) (history : list VerboseMove.t) (fens : list string).

Local Abbreviation requests := (game_requests this fens history gameEval) (only parsing).
Local Abbreviation outcomes :=
  (outcomes_of (explainerService this) net
               (game_requests this fens history gameEval) sent0)
  (only parsing).

(** The run of a game whose PGN loads and whose moves replay, in closed
    form. *)
Lemma explainGame_closed :
  chess_history pgn = Some history ->
  collect_fens history = Some fens ->
  exists run,
    explainGame this net order sent0 gameId pgn gameEval onProgress = inr run /\
    calls (events run) = requests /\
    aggregate run =
      Some (GameExplanations.Build
              gameId (explanation_map (successes outcomes.*2))
              (clock (call_all (explainerService this) net requests sent0).2) "1.0").
Proof.
  intros Hpgn Hfens. unfold explainGame. rewrite Hpgn, Hfens. cbv zeta.
  fold (game_requests this fens history gameEval).
  eexists. split; [reflexivity|]. cbn [events aggregate].
  unfold batchExplainMoves, outcomes_of.
  destruct (batch_loop_fields (explainerService this) net order requests onProgress
              3 ltac:(lia) (S (length requests)) 0 (BatchState [] [] 0 sent0 []))
    as (Hfin & Hres & _ & _ & Hsent & Hcalls & _); [lia|].
  cbv zeta in Hfin, Hres, Hsent, Hcalls. rewrite drop_0 in *.
  cbn [results sent log calls] in *.
  destruct (batch_loop _ _ _ _ _ _ _ _ _) as [st finished].
  cbn [fst snd final returned] in *. subst finished.
  rewrite Hres, Hsent, Hcalls. split; reflexivity.
Qed.

(** When a move of the history is refused in the replay, [explainGame]
    raises. *)
Lemma explainGame_raises :
  chess_history pgn = Some history ->
  collect_fens history = None ->
  exists e, explainGame this net order sent0 gameId pgn gameEval onProgress = inl e.
Proof.
  intros Hpgn Hfens. unfold explainGame. rewrite Hpgn, Hfens. eauto.
Qed.

Lemma game_requests_NoDup :
  NoDup (ExplanationRequest.moveNumber <$> requests).
Proof.
  unfold game_requests. rewrite buildExplanationRequests_omap, request_numbers.
  apply NoDup_filter, NoDup_seq.
Qed.

Lemma game_successes_NoDup :
  NoDup (MoveExplanation.moveNumber <$> successes outcomes.*2).
Proof.
  eapply sublist_NoDup; [exact game_requests_NoDup|].
  unfold outcomes_of.
  rewrite <- (call_all_requests (explainerService this) net requests sent0) at 2.
  apply successes_numbers, call_all_moveNumber.
Qed.

(** X12: when the PGN loads and the moves of its history replay from
    the initial position, [explainGame] returns an aggregate that
    carries the game identifier given and holds, under each move
    number, the explanation of the call made for the request of that
    number if the call succeeded, and nothing else: no explanation is
    overwritten or lost, and the aggregate has as many entries as calls
    succeeded. When a move of the history is refused in the replay (a
    game that starts from another position), [explainGame] raises and
    returns nothing. *)
Theorem explainGame_entries :
  chess_history pgn = Some history ->
  (collect_fens history = None ->
   exists e, explainGame this net order sent0 gameId pgn gameEval onProgress = inl e) /\
  (collect_fens history = Some fens ->
   exists run g,
     explainGame this net order sent0 gameId pgn gameEval onProgress = inr run /\
     aggregate run = Some g /\
     GameExplanations.gameId g = gameId /\
     (forall k e,
        GameExplanations.explanations g !! k = Some e <->
        exists r, (r, inr e) ∈ outcomes /\ ExplanationRequest.moveNumber r = k) /\
     size (GameExplanations.explanations g) = length (successes outcomes.*2)).
Proof.
  intros Hpgn. split; [exact (explainGame_raises Hpgn)|]. intros Hfens.
  destruct (explainGame_closed Hpgn Hfens) as (run & Hrun & _ & Hagg).
  eexists run, _. split; [exact Hrun|]. split; [exact Hagg|].
  cbn [GameExplanations.gameId GameExplanations.explanations].
  split; [reflexivity|]. split.
  - intros k e. rewrite (explanation_map_lookup _ k e game_successes_NoDup).
    rewrite elem_of_successes. split.
    + intros [[r Hr] Hk]. exists r. split; [exact Hr|].
      pose proof (call_all_moveNumber (explainerService this) net requests sent0)
        as Hall.
      rewrite Forall_forall in Hall. specialize (Hall _ Hr e eq_refl).
      simpl in Hall. congruence.
    + intros (r & Hr & Hk). split; [eauto|].
      pose proof (call_all_moveNumber (explainerService this) net requests sent0)
        as Hall.
      rewrite Forall_forall in Hall. specialize (Hall _ Hr e eq_refl).
      simpl in Hall. congruence.
  - apply explanation_map_size, game_successes_NoDup.
Qed.

(** X13: when the PGN loads and its moves replay from the initial
    position, the positions collected are the initial position and, for
    each move of the history, the position that playing it gives; the
    calls [explainGame] makes are for the requests of the builder, in
    order; and the request for a move numbered [i] carries the position
    collected at [i - 1], that is the position before the move, and the
    text of the [i]-th move of the history (source square, target
    square, promotion piece if any). The position is present exactly
    when [i] is at most one more than the number of moves of the game,
    and the move exactly when [i] is at most that number: a request for
    the move after the last of the game has a position and no move. *)
Theorem explainGame_positions_before_moves :
  chess_history pgn = Some history ->
  collect_fens history = Some fens ->
  (length fens = S (length history) /\
   fens !! 0 = Some chess_start /\
   forall j before move,
     fens !! j = Some before -> history !! j = Some move ->
     fens !! S j = chess_move before move) /\
  exists run,
    explainGame this net order sent0 gameId pgn gameEval onProgress = inr run /\
    calls (events run) = requests /\
    Forall (fun r =>
              let i := ExplanationRequest.moveNumber r in
              1 <= i /\
              ExplanationRequest.fen r = fens !! (i - 1) /\
              ExplanationRequest.uciMove r = uci_of <$> history !! (i - 1) /\
              (is_Some (ExplanationRequest.fen r) <-> i <= S (length history)) /\
              (is_Some (ExplanationRequest.uciMove r) <-> i <= length history))
           (calls (events run)).
Proof.
  intros Hpgn Hfens. pose proof (collect_fens_length _ _ Hfens) as Hlen. split.
  - split; [exact Hlen|]. unfold collect_fens in Hfens.
    destruct (replay chess_start history) as [l|] eqn:Hl; [|discriminate].
    injection Hfens as <-. split; [reflexivity|].
    intros j before move. apply replay_step. exact Hl.
  - destruct (explainGame_closed Hpgn Hfens) as (run & Hrun & Hcalls & _).
    exists run. split; [exact Hrun|]. split; [exact Hcalls|]. rewrite Hcalls.
    unfold game_requests. rewrite buildExplanationRequests_omap, Forall_forall.
    intros r Hr. apply list_elem_of_omap in Hr as (i & Hi & Hr).
    apply elem_of_seq in Hi. unfold request_at in Hr.
    destruct (GameEval.positions gameEval !! i); [|discriminate].
    destruct (GameEval.positions gameEval !! (i - 1)); [|discriminate].
    destruct (PositionEval.moveClassification _); [|discriminate].
    destruct (shouldExplainMove _ _ _); [|discriminate].
    injection Hr as <-. cbv zeta.
    cbn [ExplanationRequest.moveNumber ExplanationRequest.fen
         ExplanationRequest.uciMove].
    split; [lia|]. split; [reflexivity|].
    split; [apply collect_uciMoves_lookup|]. split.
    + rewrite lookup_lt_is_Some, Hlen. lia.
    + rewrite lookup_lt_is_Some.
      unfold collect_uciMoves. rewrite length_map. lia.
Qed.

End Aggregates.

(** ** Explaining one move *)

Section Single.
Context `{Externals}.
Variables (this : GameExplanationService) (net : network).

(** [explainMove] does not read the evaluation of the previous
    position, only the win percentage taken from it. *)
Lemma explainMove_previous (service : MoveExplainerService)
    (previous : option PositionEval.t) (r : ExplanationRequest.t) (sent : nat) :
  explainMove service net (with_previous previous r) sent = explainMove service net r sent.
Proof. destruct r. reflexivity. Qed.

Lemma explainSingleMove_request_at (fens uciMoves : list string)
    (positions : list PositionEval.t) (fen uciMove : string) (i : nat)
    (position previousPosition : PositionEval.t) (sent : nat) :
  positions !! i = Some position ->
  positions !! (i - 1) = Some previousPosition ->
  fens !! (i - 1) = Some fen -> uciMoves !! (i - 1) = Some uciMove ->
  explainSingleMove this net fen uciMove i position (Some previousPosition) sent =
  match request_at this fens uciMoves positions i with
  | Some r => single_outcome (explainMove (explainerService this) net r sent)
  | None => (inr None, sent)
  end.
Proof.
  intros Hp Hq Hfen Huci. unfold explainSingleMove, request_at, winChange.
  rewrite Hp, Hq, Hfen, Huci.
  destruct (PositionEval.moveClassification position) as [c|]; [|reflexivity].
  cbv zeta. destruct (shouldExplainMove _ _ _); [|reflexivity].
  cbn [negb]. unfold single_outcome.
  destruct (explainMove _ _ _ _) as [o s]. reflexivity.
Qed.

(** X14: [explainSingleMove] and the request builder of [explainGame]
    agree: called on move [i] of a trace with the position text and the
    move that the lists hold for it, and with the evaluation of the
    previous position, it answers [null] without calling the network
    exactly when the builder emits no request numbered [i], and
    otherwise it makes the call for the very request the builder
    emits. *)
Theorem explainSingleMove_agrees_with_builder (fens uciMoves : list string)
    (positions : list PositionEval.t) (fen uciMove : string) (i : nat)
    (position previousPosition : PositionEval.t) (sent : nat) :
  1 <= i ->
  positions !! i = Some position ->
  positions !! (i - 1) = Some previousPosition ->
  fens !! (i - 1) = Some fen -> uciMoves !! (i - 1) = Some uciMove ->
  let requests := buildExplanationRequests this fens uciMoves positions in
  let single :=
    explainSingleMove this net fen uciMove i position (Some previousPosition) sent in
  (forall r, r ∈ requests -> ExplanationRequest.moveNumber r = i ->
             single = single_outcome (explainMove (explainerService this) net r sent)) /\
  (i ∉ ExplanationRequest.moveNumber <$> requests -> single = (inr None, sent)) /\
  (single.1 = inr None <-> i ∉ ExplanationRequest.moveNumber <$> requests).
Proof.
  intros Hi Hp Hq Hfen Huci requests single. subst requests single.
  rewrite (explainSingleMove_request_at fens uciMoves positions fen uciMove i
             position previousPosition sent Hp Hq Hfen Huci).
  rewrite buildExplanationRequests_omap.
  assert (Hlen : i < length positions) by (apply lookup_lt_is_Some; eauto).
  assert (Hmem : forall r, request_at this fens uciMoves positions i = Some r ->
                 i ∈ ExplanationRequest.moveNumber <$>
                       omap (request_at this fens uciMoves positions)
                            (seq 1 (length positions - 1))).
  { intros r Hr. rewrite request_numbers. apply list_elem_of_filter.
    split; [eauto|]. apply elem_of_seq. lia. }
  assert (Hnone : request_at this fens uciMoves positions i = None ->
                  i ∉ ExplanationRequest.moveNumber <$>
                        omap (request_at this fens uciMoves positions)
                             (seq 1 (length positions - 1))).
  { intros Hr. rewrite request_numbers. intros Hin.
    apply list_elem_of_filter in Hin as [[r Hsome] _]. congruence. }
  split; [|split].
  - intros r Hr Hn. apply list_elem_of_omap in Hr as (j & _ & Hr).
    pose proof (request_at_moveNumber this fens uciMoves positions j r Hr) as Hj.
    rewrite Hj in Hn. rewrite Hn in Hr. rewrite Hr. reflexivity.
  - intros Hnot.
    destruct (request_at this fens uciMoves positions i) as [r|] eqn:Hr;
      [|reflexivity].
    exfalso. exact (Hnot (Hmem r eq_refl)).
  - destruct (request_at this fens uciMoves positions i) as [r|] eqn:Hr.
    + unfold single_outcome. split.
      * cbn [fst]. destruct (explainMove _ _ _ _).1; discriminate.
      * intros Hnot. exfalso. exact (Hnot (Hmem r eq_refl)).
    + split; [intros _; exact (Hnone eq_refl) | reflexivity].
Qed.

(** X15: leaving out the evaluation of the previous position is the
    same as giving one whose win percentage is 50: the decision, the
    request sent and the outcome are the same. *)
Theorem explainSingleMove_without_previous (fen uciMove : string) (moveNumber : nat)
    (positionEval previous : PositionEval.t) (sent : nat) :
  getPositionWinPercentage previous = 50%float ->
  explainSingleMove this net fen uciMove moveNumber positionEval None sent =
  explainSingleMove this net fen uciMove moveNumber positionEval (Some previous) sent.
Proof.
  intros H50. unfold explainSingleMove. rewrite H50.
  destruct (PositionEval.moveClassification positionEval) as [c|]; [|reflexivity].
  cbv zeta. destruct (shouldExplainMove _ _ _); [|reflexivity]. cbn [negb].
  match goal with
  | |- context [explainMove _ _ ?r sent] =>
      rewrite <- (explainMove_previous (explainerService this) (Some previous) r sent)
  end.
  reflexivity.
Qed.

End Single.

(** ** The hooks *)

Section Selectors.
Context `{Externals}.
Variables (this : GameExplanationService) (net : network) (order : scheduler).
Variables (sent0 : nat) (gameId : Z) (pgn : string) (gameEval : GameEval.t).
Variable onProgress : bool.

(** The aggregate of a game has no entry for a move numbered 0. *)
Lemma game_entries_positive (history : list VerboseMove.t) (fens : list string)
    (k : nat) :
  is_Some (explanation_map
             (successes (outcomes_of (explainerService this) net
                                     (game_requests this fens history gameEval)
                                     sent0).*2)
           !! k) ->
  1 <= k.
Proof.
  intros [e He].
  apply (explanation_map_lookup _ k e
           (game_successes_NoDup this net sent0 gameEval history fens))
    in He as [Hin Hk].
  apply elem_of_successes in Hin as [r Hr].
  pose proof (call_all_moveNumber (explainerService this) net
                (game_requests this fens history gameEval) sent0) as Hall.
  rewrite Forall_forall in Hall. specialize (Hall _ Hr e eq_refl). simpl in Hall.
  assert (Hreq : r ∈ game_requests this fens history gameEval).
  { rewrite <- (call_all_requests (explainerService this) net
                  (game_requests this fens history gameEval) sent0).
    apply (list_elem_of_fmap_2 fst) in Hr. exact Hr. }
  unfold game_requests in Hreq. rewrite buildExplanationRequests_omap in Hreq.
  apply list_elem_of_omap in Hreq as (i & Hi & Hreq).
  apply elem_of_seq in Hi. apply request_at_moveNumber in Hreq. lia.
Qed.

(** X16: on every aggregate that [explainGame] returns, the
    explanation of the move being viewed is the one
    [getMoveExplanation] gives for its index, whatever the index: the
    test that treats an index of 0 as no index hides nothing, because
    no explanation is stored under 0. ([explainGame] returns when the
    PGN loads and its moves replay from the initial position.) *)
Theorem currentMoveExplanation_after_explainGame
    (history : list VerboseMove.t) (fens : list string) :
  (forall run,
     explainGame this net order sent0 gameId pgn gameEval onProgress = inr run ->
     is_Some (aggregate run) /\
     forall idx,
       currentMoveExplanation (aggregate run) (Some idx)
       = getMoveExplanation (aggregate run) idx) /\
  (chess_history pgn = Some history -> collect_fens history = Some fens ->
   exists run,
     explainGame this net order sent0 gameId pgn gameEval onProgress = inr run).
Proof.
  split.
  - clear history fens. intros run Hrun.
    destruct (chess_history pgn) as [moves|] eqn:Hpgn;
      [|unfold explainGame in Hrun; rewrite Hpgn in Hrun; discriminate].
    destruct (collect_fens moves) as [positions|] eqn:Hfens;
      [|unfold explainGame in Hrun; rewrite Hpgn, Hfens in Hrun; discriminate].
    destruct (explainGame_closed this net order sent0 gameId pgn gameEval onProgress
                moves positions Hpgn Hfens) as (run' & Hrun' & _ & Hagg).
    rewrite Hrun in Hrun'. injection Hrun' as <-.
    rewrite Hagg. split; [eauto|].
    intros idx. unfold currentMoveExplanation, getMoveExplanation.
    cbn [GameExplanations.explanations].
    destruct (bool_decide_reflect (idx = 0)) as [->|_]; [|reflexivity].
    match goal with
    | |- None = ?m !! 0 => destruct (m !! 0) as [e|] eqn:He; [|reflexivity]
    end.
    pose proof (game_entries_positive moves positions 0 (ex_intro _ e He)). lia.
  - intros Hpgn Hfens.
    destruct (explainGame_closed this net order sent0 gameId pgn gameEval onProgress
                history fens Hpgn Hfens) as (run & Hrun & _).
    eauto.
Qed.

End Selectors.

Section Hook.
Context `{Externals}.
Variables (net : network) (order : scheduler) (sent : nat).
Variables (inputs : hook_inputs) (st : hook_state).

Local Abbreviation generated := (generateExplanations net order sent inputs st)
  (only parsing).

(** A call that passes the guards, whose PGN loads and whose moves
    replay, in closed form. *)
Lemma generateExplanations_closed (evaluation : GameEval.t) (key : string)
    (history : list VerboseMove.t) (fens : list string) :
  gameEval inputs = Some evaluation ->
  pgn inputs <> EmptyString ->
  isGenerating st = false ->
  key_or (apiKey_argument inputs) (apiKey_environment inputs) = Some key ->
  key <> EmptyString ->
  chess_history (pgn inputs) = Some history ->
  collect_fens history = Some fens ->
  let service := new_GameExplanationService key in
  let requests := game_requests service fens history evaluation in
  generated.1 =
    HookState
      (Some (GameExplanations.Build
               (id_or (gameFromUrl_id inputs) (Date_now inputs))
               (explanation_map
                  (successes (outcomes_of (explainerService service) net requests sent).*2))
               (clock (call_all (explainerService service) net requests sent).2)
               "1.0"))
      false None None /\
  calls generated.2 = requests.
Proof.
  intros Heval Hpgn Hgen Hkey Hne Hhist Hfens service requests.
  unfold generateExplanations. rewrite Heval, Hgen, Hkey.
  rewrite bool_decide_eq_false_2 by exact Hpgn. cbn [orb].
  destruct key as [|a key]; [congruence|].
  destruct (explainGame_closed service net order sent
              (id_or (gameFromUrl_id inputs) (Date_now inputs)) (pgn inputs)
              evaluation true history fens Hhist Hfens) as (run & Hrun & Hcalls & Hagg).
  fold service. rewrite Hrun, Hagg. cbn [fst snd]. split; [reflexivity | exact Hcalls].
Qed.

(** A call that passes the guards and whose PGN loads, but a move of
    which is refused in the replay: the error is set, and nothing else
    changes. *)
Lemma generateExplanations_refused (evaluation : GameEval.t) (key : string)
    (history : list VerboseMove.t) :
  gameEval inputs = Some evaluation ->
  pgn inputs <> EmptyString ->
  isGenerating st = false ->
  key_or (apiKey_argument inputs) (apiKey_environment inputs) = Some key ->
  key <> EmptyString ->
  chess_history (pgn inputs) = Some history ->
  collect_fens history = None ->
  exists message,
    generated = (HookState (gameExplanations st) false None (Some message), []).
Proof.
  intros Heval Hpgn Hgen Hkey Hne Hhist Hfens.
  unfold generateExplanations. rewrite Heval, Hgen, Hkey.
  rewrite bool_decide_eq_false_2 by exact Hpgn. cbn [orb].
  destruct key as [|a key]; [congruence|].
  unfold explainGame. rewrite Hhist, Hfens. cbn. eauto.
Qed.

(** X17: failures of single calls never reach the hook: a call that
    passes the guards on a game whose PGN loads and whose moves replay
    from the initial position ends with no error, not generating, with
    no progress, and with an aggregate stored that carries the database
    identifier of the game (the time, if there is none) and one entry
    for each call that succeeded, possibly none; the calls made are
    those for the requests of the game, and no further generation is
    called for. When a move is refused in the replay, no call is made,
    the error is set and the explanations stay as they were. *)
Theorem generateExplanations_stores_aggregate (evaluation : GameEval.t) (key : string)
    (history : list VerboseMove.t) (fens : list string) :
  gameEval inputs = Some evaluation ->
  pgn inputs <> EmptyString ->
  isGenerating st = false ->
  key_or (apiKey_argument inputs) (apiKey_environment inputs) = Some key ->
  key <> EmptyString ->
  chess_history (pgn inputs) = Some history ->
  let service := new_GameExplanationService key in
  let requests := game_requests service fens history evaluation in
  (collect_fens history = Some fens ->
   exists g,
     generated.1 = HookState (Some g) false None None /\
     GameExplanations.gameId g = id_or (gameFromUrl_id inputs) (Date_now inputs) /\
     explanationCount (Some g)
       = length (successes (outcomes_of (explainerService service) net requests sent).*2) /\
     calls generated.2 = requests /\
     shouldAutoGenerate inputs generated.1 = false) /\
  (collect_fens history = None ->
   exists message,
     generated = (HookState (gameExplanations st) false None (Some message), [])).
Proof.
  intros Heval Hpgn Hgen Hkey Hne Hhist service requests. split.
  - intros Hfens.
    destruct (generateExplanations_closed evaluation key history fens
                Heval Hpgn Hgen Hkey Hne Hhist Hfens) as [Hstate Hcalls].
    eexists. split; [exact Hstate|]. split; [reflexivity|]. split; [|split].
    + cbn [explanationCount GameExplanations.explanations].
      apply explanation_map_size, game_successes_NoDup.
    + exact Hcalls.
    + rewrite Hstate. reflexivity.
  - exact (generateExplanations_refused evaluation key history
             Heval Hpgn Hgen Hkey Hne Hhist).
Qed.

(** X18: after a call that passes the guards on a game whose PGN loads
    and whose moves replay from the initial position, the button is
    rendered exactly when some call succeeded: when every call failed,
    an empty aggregate is stored, and the button is not rendered. When
    a move is refused in the replay, nothing is stored and the button
    is rendered as before the call. *)
Theorem explainButton_after_generation (evaluation : GameEval.t) (key : string)
    (history : list VerboseMove.t) (fens : list string) :
  gameEval inputs = Some evaluation ->
  pgn inputs <> EmptyString ->
  isGenerating st = false ->
  key_or (apiKey_argument inputs) (apiKey_environment inputs) = Some key ->
  key <> EmptyString ->
  chess_history (pgn inputs) = Some history ->
  let service := new_GameExplanationService key in
  let requests := game_requests service fens history evaluation in
  (collect_fens history = Some fens ->
   (explainButton_shown inputs generated.1 = true <->
    exists r e, (r, inr e) ∈ outcomes_of (explainerService service) net requests sent)) /\
  (collect_fens history = None ->
   explainButton_shown inputs generated.1 = explainButton_shown inputs st).
Proof.
  intros Heval Hpgn Hgen Hkey Hne Hhist service requests. split.
  - intros Hfens.
    destruct (generateExplanations_closed evaluation key history fens
                Heval Hpgn Hgen Hkey Hne Hhist Hfens) as [Hstate _].
    rewrite Hstate. unfold explainButton_shown, shouldAutoGenerate, hasExplanations.
    cbn [gameExplanations isGenerating GameExplanations.explanations].
    rewrite (bool_decide_eq_true_2 (is_Some (Some _))) by eauto.
    cbn [negb andb]. rewrite negb_involutive, bool_decide_eq_true.
    rewrite (explanation_map_size _
               (game_successes_NoDup service net sent evaluation history fens)).
    split.
    + intros Hlen.
      destruct (successes _) as [|e l] eqn:Hs; [simpl in Hlen; lia|].
      assert (He : e ∈ e :: l) by left. rewrite <- Hs in He.
      apply elem_of_successes in He as [r Hr]. eauto.
    + intros (r & e & Hin).
      assert (He : e ∈ successes
                         (outcomes_of (explainerService service) net requests sent).*2)
        by (apply elem_of_successes; eauto).
      apply list_elem_of_lookup in He as [i Hi]. apply lookup_lt_Some in Hi.
      exact (Nat.le_lt_trans _ _ _ (Nat.le_0_l i) Hi).
  - intros Hfens.
    destruct (generateExplanations_refused evaluation key history
                Heval Hpgn Hgen Hkey Hne Hhist Hfens) as [message ->].
    unfold explainButton_shown, shouldAutoGenerate.
    cbn [fst gameExplanations isGenerating]. rewrite Hgen. reflexivity.
Qed.

(** X19: whatever the inputs, a call of [generateExplanations] leaves
    the generating flag as it found it, and either it makes no call and
    leaves the explanations as they were, or it ends with an aggregate
    stored and no error; while a generation is running it changes
    nothing. *)
Theorem generateExplanations_outcomes :
  let outcome := generateExplanations net order sent inputs st in
  isGenerating outcome.1 = isGenerating st /\
  ((gameExplanations outcome.1 = gameExplanations st /\ outcome.2 = []) \/
   exists g, outcome.1 = HookState (Some g) false None None) /\
  (isGenerating st = true -> outcome = (st, [])).
Proof.
  cbv zeta. unfold generateExplanations.
  destruct (gameEval inputs) as [evaluation|]; [|auto 6].
  destruct (bool_decide_reflect (pgn inputs = EmptyString)) as [Hpgn|Hpgn];
    [cbn [orb]; auto 6|].
  destruct (isGenerating st) eqn:Hgen; cbn [orb]; [auto 6|].
  destruct (key_or _ _) as [[|a key]|];
    [cbn; split; [reflexivity | split; [left; split; reflexivity | discriminate]]
    |
    |cbn; split; [reflexivity | split; [left; split; reflexivity | discriminate]]].
  destruct (chess_history (pgn inputs)) as [history|] eqn:Hhist.
  - destruct (collect_fens history) as [fens|] eqn:Hfens.
    + destruct (explainGame_closed (new_GameExplanationService (String a key)) net
                  order sent (id_or (gameFromUrl_id inputs) (Date_now inputs))
                  (pgn inputs) evaluation true history fens Hhist Hfens)
        as (run & Hrun & _ & Hagg).
      rewrite Hrun, Hagg. cbn. split; [reflexivity|]. split; [eauto|discriminate].
    + unfold explainGame. rewrite Hhist, Hfens. cbn. split; [reflexivity|].
      split; [auto|discriminate].
  - unfold explainGame. rewrite Hhist. cbn. split; [reflexivity|].
    split; [auto|discriminate].
Qed.

End Hook.

(** ** The policy beyond the flagged classifications *)

Lemma SFcompare_nan_r (x : spec_float) : SFcompare x S754_nan = None.
Proof. destruct x as [s|s| |s m e]; reflexivity. Qed.

(** A number that is not equal to itself is not-a-number. *)
Lemma is_nan_spec (x : float) : PrimFloat.is_nan x = true -> Prim2SF x = S754_nan.
Proof.
  unfold PrimFloat.is_nan. rewrite FloatAxioms.eqb_spec. unfold SFeqb.
  destruct (Prim2SF x) as [s|s| |s m e]; simpl; try reflexivity.
  - destruct s; discriminate.
  - destruct s; discriminate.
  - destruct s; rewrite Z.compare_refl, Pos.compare_cont_refl; discriminate.
Qed.

Lemma abs_geb_opp (x y : float) : abs_geb (- x) y = abs_geb x y.
Proof.
  unfold abs_geb. rewrite !FloatAxioms.leb_spec, !FloatAxioms.abs_spec,
    FloatAxioms.opp_spec.
  destruct (Prim2SF x) as [s|s| |s m e]; reflexivity.
Qed.

Lemma abs_geb_nan (x y : float) :
  PrimFloat.is_nan x = true \/ PrimFloat.is_nan y = true -> abs_geb x y = false.
Proof.
  unfold abs_geb. rewrite FloatAxioms.leb_spec, FloatAxioms.abs_spec. unfold SFleb.
  intros [Hx|Hy].
  - rewrite (is_nan_spec x Hx). simpl. rewrite SFcompare_nan_r. reflexivity.
  - rewrite (is_nan_spec y Hy). reflexivity.
Qed.

(** X20: the policy beyond the classifications with a rule of their
    own. Only the magnitude of the evaluation change counts: a change
    and its opposite are treated alike. An Okay or a Forced move is
    explained exactly when the magnitude reaches the threshold. When
    the change or the threshold is not a number the threshold rule
    never applies, so such a move is not explained. *)
Theorem shouldExplainMove_by_magnitude (this : MoveExplainerService)
    (classification : MoveClassification) (evalChange : float) :
  let threshold := ExplanationSettings.minEvalChange (settings this) in
  shouldExplainMove this classification (- evalChange)
    = shouldExplainMove this classification evalChange /\
  (classification ∈ [Okay; Forced] ->
   shouldExplainMove this classification evalChange = abs_geb evalChange threshold) /\
  (classification ∈ [Okay; Forced] ->
   PrimFloat.is_nan evalChange = true \/ PrimFloat.is_nan threshold = true ->
   shouldExplainMove this classification evalChange = false).
Proof.
  intros threshold.
  assert (Hplain : classification ∈ [Okay; Forced] ->
            shouldExplainMove this classification evalChange
            = abs_geb evalChange threshold).
  { intros Hc. rewrite shouldExplainMove_rules.
    repeat (apply elem_of_cons in Hc as [->|Hc]); [| |inversion Hc];
      rewrite !andb_false_l; reflexivity. }
  split; [|split].
  - rewrite !shouldExplainMove_rules, abs_geb_opp. reflexivity.
  - exact Hplain.
  - intros Hc Hnan. rewrite (Hplain Hc). apply abs_geb_nan. exact Hnan.
Qed.

(** ** Examples *)

(** Seven sample requests of which the fifth fails, three at a time:
    the run returns the six explanations of the others, in order. *)
Lemma batch_returns_in_order_example :
  returned (batchExplainMoves default_service fifth_fails in_order 0
                              seven_requests true 3 7)
  = Some (successes (outcomes_of default_service fifth_fails seven_requests 0).*2).
Proof. apply batch_returns_in_order; [lia | simpl; lia]. Defined.

Lemma batch_accounts_for_all_example :
  let run := batchExplainMoves default_service fifth_fails in_order 0
                               seven_requests true 3 7 in
  errors (final run) ≡ₚ failures (outcomes_of default_service fifth_fails seven_requests 0) /\
  length (results (final run)) + length (errors (final run)) = 7 /\
  completed (final run) = 7 /\
  sent (final run) = 7.
Proof.
  destruct (batch_accounts_for_all default_service fifth_fails in_order seven_requests
              true 3 0 7 ltac:(lia) ltac:(simpl; lia) ltac:(intros; reflexivity))
    as (Herr & Hlen & Hdone & Hsent).
  cbv zeta. split; [exact Herr|]. split; [exact Hlen|]. split; [exact Hdone|].
  rewrite Hsent. vm_compute. reflexivity.
Defined.


(** With a concurrency of zero five turns over the seven requests are
    five pauses, and nothing is returned. *)
Lemma batch_without_progress_example :
  let run := batchExplainMoves default_service reply_network in_order 0
                               seven_requests true 0 5 in
  returned run = None /\ log (final run) = replicate 5 (Paused 100).
Proof.
  destruct (batch_without_progress default_service reply_network in_order
              seven_requests true 0 0 5 ltac:(lia)) as (_ & Hnone & Hzero).
  split; [apply Hnone; discriminate|].
  destruct (Hzero ltac:(discriminate) eq_refl) as [Hlog _]. exact Hlog.
Defined.

(** A request without a line is refused before the network is called. *)
Lemma explainMove_needs_a_line_example :
  exists e, explainMove default_service reply_network lineless_request 0
            = (inl (PromptFailed e), 0).
Proof.
  apply (explainMove_needs_a_line default_service reply_network lineless_request 0).
  reflexivity.
Defined.

(** The sample reply to the first sample request gives an explanation
    for move 1. *)
Lemma explainMove_succeeds_example :
  exists explanation,
    explainMove default_service reply_network (sample_request 1) 0
      = (inr explanation, 1) /\
    MoveExplanation.moveNumber explanation = 1.
Proof.
  edestruct (explainMove_succeeds default_service reply_network (sample_request 1) 0)
    as (explanation & Hcall & _ & Hnumber & _).
  - vm_compute. reflexivity.
  - reflexivity.
  - reflexivity.
  - reflexivity.
  - reflexivity.
  - reflexivity.
  - vm_compute. discriminate.
  - exists explanation. split; [exact Hcall | exact Hnumber].
Defined.

(** The sample reply is taken apart: its explanation is kept whole and,
    as it gives no reason, the rationale is empty. *)
Lemma parseResponse_structured_example :
  exists result,
    parseResponse default_service sample_reply (sample_request 1) "now" = inr result /\
    MoveExplanation.explanation result = Js.JString "Develops a piece." /\
    MoveExplanation.classificationReason result = Js.JString "".
Proof.
  edestruct (parseResponse_structured default_service (sample_request 1) sample_reply
               "now" "Develops a piece.")
    as (result & Hresult & _ & Hwhole & _ & _ & _ & Hreason).
  - vm_compute. discriminate.
  - reflexivity.
  - reflexivity.
  - exists result. split; [exact Hresult|]. split.
    + apply Hwhole. vm_compute. discriminate.
    + apply Hreason. reflexivity.
Defined.

(** On the sample game one call succeeds, and the aggregate has one
    entry. On the game that starts from a position of its own the
    replay refuses the move, and [explainGame] raises. *)
Lemma explainGame_entries_example :
  (exists run g,
     explainGame (new_GameExplanationService "key") reply_network in_order 0
                 7 "1. e4 e5" sample_game true = inr run /\
     aggregate run = Some g /\
     GameExplanations.gameId g = 7%Z /\
     size (GameExplanations.explanations g) = 1) /\
  (exists e,
     explainGame (new_GameExplanationService "key") reply_network in_order 0
                 7 setup_pgn sample_game true = inl e).
Proof.
  split.
  - destruct (explainGame_entries (H := sample_externals)
                (new_GameExplanationService "key") reply_network in_order 0 7
                "1. e4 e5" sample_game true sample_history sample_fens
                ltac:(vm_compute; reflexivity)) as [_ Hreturns].
    destruct (Hreturns ltac:(vm_compute; reflexivity))
      as (run & g & Hrun & Hg & Hid & _ & Hsize).
    exists run, g. split; [exact Hrun|]. split; [exact Hg|]. split; [exact Hid|].
    rewrite Hsize. vm_compute. reflexivity.
  - destruct (explainGame_entries (H := sample_externals)
                (new_GameExplanationService "key") reply_network in_order 0 7
                setup_pgn sample_game true setup_history []
                ltac:(vm_compute; reflexivity)) as [Hraises _].
    apply Hraises. vm_compute. reflexivity.
Defined.

(** On the sample game the only call is for move 1, with the initial
    position and the first move. *)
Lemma explainGame_positions_before_moves_example :
  exists run,
    explainGame (new_GameExplanationService "key") reply_network in_order 0
                7 "1. e4 e5" sample_game true = inr run /\
    ExplanationRequest.moveNumber <$> calls (events run) = [1] /\
    ExplanationRequest.fen <$> calls (events run) = [Some start_fen] /\
    ExplanationRequest.uciMove <$> calls (events run) = [Some "e2e4"].
Proof.
  destruct (explainGame_positions_before_moves (H := sample_externals)
              (new_GameExplanationService "key") reply_network in_order 0 7
              "1. e4 e5" sample_game true sample_history sample_fens
              ltac:(vm_compute; reflexivity) ltac:(vm_compute; reflexivity))
    as (_ & run & Hrun & Hcalls & _).
  exists run. split; [exact Hrun|]. rewrite Hcalls.
  split; [|split]; vm_compute; reflexivity.
Defined.

(** On the sample game the second move is rejected by the policy, and
    explaining it alone answers [null] without a call. *)
Lemma explainSingleMove_agrees_with_builder_example :
  explainSingleMove (new_GameExplanationService "key") reply_network "1" "e7e5" 2
                    (sample_position (Some Okay) 35)
                    (Some (sample_position (Some Best) 30)) 0
  = (inr None, 0).
Proof.
  destruct (explainSingleMove_agrees_with_builder
              (new_GameExplanationService "key") reply_network
              ["0"; "1"; "2"] ["e2e4"; "e7e5"] (GameEval.positions sample_game)
              "1" "e7e5" 2 (sample_position (Some Okay) 35)
              (sample_position (Some Best) 30) 0
              ltac:(lia) eq_refl eq_refl eq_refl eq_refl) as (_ & Hnull & _).
  apply Hnull.
  assert (Hn : ExplanationRequest.moveNumber <$>
                 buildExplanationRequests (new_GameExplanationService "key")
                   ["0"; "1"; "2"] ["e2e4"; "e7e5"] (GameEval.positions sample_game)
               = [1]) by (vm_compute; reflexivity).
  rewrite Hn. intros Hin.
  apply elem_of_cons in Hin as [Hin|Hin]; [discriminate | inversion Hin].
Defined.

(** A first move explained without the evaluation of the start
    position, and with one that is dead even. *)
Lemma explainSingleMove_without_previous_example :
  explainSingleMove (new_GameExplanationService "key") reply_network "0" "e2e4" 1
                    (sample_position (Some Best) 30) None 0
  = explainSingleMove (new_GameExplanationService "key") reply_network "0" "e2e4" 1
                      (sample_position (Some Best) 30)
                      (Some (sample_position None 0)) 0.
Proof.
  apply explainSingleMove_without_previous. vm_compute. reflexivity.
Defined.

Lemma currentMoveExplanation_after_explainGame_example :
  exists run,
    explainGame (new_GameExplanationService "key") reply_network in_order 0
                7 "1. e4 e5" sample_game true = inr run /\
    currentMoveExplanation (aggregate run) (Some 0) = getMoveExplanation (aggregate run) 0.
Proof.
  destruct (currentMoveExplanation_after_explainGame (H := sample_externals)
              (new_GameExplanationService "key") reply_network in_order 0 7
              "1. e4 e5" sample_game true sample_history sample_fens)
    as [Hall Hreturns].
  destruct (Hreturns ltac:(vm_compute; reflexivity) ltac:(vm_compute; reflexivity))
    as [run Hrun].
  exists run. split; [exact Hrun|]. apply (Hall run Hrun).
Defined.

(** An idle hook on the sample game, with a server that fails every
    call: the run ends without an error and stores an empty aggregate
    under the identifier of the game. On the game that starts from a
    position of its own, the run ends with an error and stores
    nothing. *)
Lemma generateExplanations_stores_aggregate_example :
  (exists g,
     (generateExplanations error_network in_order 0 sample_inputs idle_hook).1
       = HookState (Some g) false None None /\
     GameExplanations.gameId g = 7%Z /\
     explanationCount (Some g) = 0) /\
  (exists message,
     generateExplanations reply_network in_order 0 setup_inputs idle_hook
     = (HookState None false None (Some message), [])).
Proof.
  split.
  - destruct (generateExplanations_stores_aggregate (H := sample_externals)
                error_network in_order 0 sample_inputs idle_hook sample_game "key"
                sample_history sample_fens
                eq_refl ltac:(discriminate) eq_refl eq_refl ltac:(discriminate)
                ltac:(vm_compute; reflexivity)) as [Hstored _].
    destruct (Hstored ltac:(vm_compute; reflexivity))
      as (g & Hstate & Hid & Hcount & _).
    exists g. split; [exact Hstate|]. split; [exact Hid|].
    rewrite Hcount. vm_compute. reflexivity.
  - destruct (generateExplanations_stores_aggregate (H := sample_externals)
                reply_network in_order 0 setup_inputs idle_hook sample_game "key"
                setup_history []
                eq_refl ltac:(vm_compute; discriminate) eq_refl eq_refl
                ltac:(discriminate) ltac:(vm_compute; reflexivity)) as [_ Hrefused].
    exact (Hrefused ltac:(vm_compute; reflexivity)).
Defined.

(** After the run in which every call fails the button is not
    rendered; after a run in which the call succeeds it is; and after
    the run that ends with an error it is rendered as before. *)
Lemma explainButton_after_generation_example :
  explainButton_shown
    sample_inputs
    (generateExplanations error_network in_order 0 sample_inputs idle_hook).1 = false /\
  explainButton_shown
    sample_inputs
    (generateExplanations reply_network in_order 0 sample_inputs idle_hook).1 = true /\
  explainButton_shown
    setup_inputs
    (generateExplanations reply_network in_order 0 setup_inputs idle_hook).1 = true.
Proof.
  split; [|split].
  - apply not_true_is_false. intros Hshown.
    destruct (explainButton_after_generation (H := sample_externals)
                error_network in_order 0 sample_inputs idle_hook sample_game "key"
                sample_history sample_fens
                eq_refl ltac:(discriminate) eq_refl eq_refl ltac:(discriminate)
                ltac:(vm_compute; reflexivity)) as [Hiff _].
    apply (Hiff ltac:(vm_compute; reflexivity)) in Hshown as (r & e & Hin).
    vm_compute in Hin.
    apply elem_of_cons in Hin as [Hin|Hin]; [discriminate | inversion Hin].
  - destruct (explainButton_after_generation (H := sample_externals)
                reply_network in_order 0 sample_inputs idle_hook sample_game "key"
                sample_history sample_fens
                eq_refl ltac:(discriminate) eq_refl eq_refl ltac:(discriminate)
                ltac:(vm_compute; reflexivity)) as [Hiff _].
    apply (Hiff ltac:(vm_compute; reflexivity)).
    eexists _, _. vm_compute. left.
  - destruct (explainButton_after_generation (H := sample_externals)
                reply_network in_order 0 setup_inputs idle_hook sample_game "key"
                setup_history []
                eq_refl ltac:(vm_compute; discriminate) eq_refl eq_refl
                ltac:(discriminate) ltac:(vm_compute; reflexivity)) as [_ Hsame].
    rewrite (Hsame ltac:(vm_compute; reflexivity)). reflexivity.
Defined.

(** Under the default settings an Okay move is explained at a change
    of 10 either way, and not at a change that is not a number. *)
Lemma shouldExplainMove_by_magnitude_example :
  shouldExplainMove default_service Okay (-10) = shouldExplainMove default_service Okay 10 /\
  shouldExplainMove default_service Okay 10 = true /\
  shouldExplainMove default_service Okay nan = false.
Proof.
  destruct (shouldExplainMove_by_magnitude default_service Okay 10) as (Hsign & Hplain & _).
  destruct (shouldExplainMove_by_magnitude default_service Okay nan) as (_ & _ & Hnan).
  split; [exact Hsign|]. split.
  - rewrite Hplain; [vm_compute; reflexivity|]. left.
  - apply Hnan; [left | left; reflexivity].
Defined.
